(** * yolov3_train.py: the YOLOv3 training script

    A shallow embedding of [main] of [src/yolov3_train.py].  The script is
    straight-line orchestration code: it resolves the command line, builds
    the model, the optimizer, the iterator and the updater, registers the
    trainer extensions and hands over to [trainer.run()].

    - Python integers are [Z]; a float is the rational its decimal literal
      denotes ([main] performs no float arithmetic, it only passes floats on).
    - Objects built by the framework are represented by the arguments the
      script constructs them with.
    - [main] is written in a state and exception monad; the state holds
      what the script mutates: the list object behind [args.steps], the
      current device, the optimizer's hooks and the trainer's registry.
    - Collaborators that read files or the installation ([load_list],
      [load_npz], [YOLODataset], [PlotReport.available], the seeding of
      the GPU generator, the start of the training iterator, the builtin
      conversions [int] and [float]) are fields of an environment [Env].
    - [argparse] and the trainer loop with its triggers are library code;
      they are modelled as far as the script relies on them, in the modules
      [argparse] and [trainer]. *)

From Stdlib Require Import ZArith QArith String Ascii List.
From stdpp Require Import base option list gmap strings pretty.

Open Scope string_scope.
Open Scope list_scope.
Open Scope Z_scope.

(** ** The parsed command line *)

(** The attributes of [args] after [parser.parse_args()]. [--names] and
    [--train] are declared without a default, so theirs is [None]. *)
Record Args := {
  names : option string;
  train : option string;
  valid : string;
  detection : string;
  batchsize : Z;
  iteration : Z;
  gpus : list Z;
  out : string;
  seed : Z;
  display_interval : Z;
  snapshot_interval : Z;
  ignore_thresh : Q;
  thresh : Q;
  darknet : string;
  darknet_class : Z;
  steps : list Z;
  scales : list Q
}.

Record Env := {
  py_int : string → option Z;                        (* int(s); None: ValueError *)
  py_float : string → option Q;                      (* float(s); None: ValueError *)
  load_list : option string → option (list string);  (* lib.data.load_list; None: raises *)
  load_npz : string → Z → bool;                      (* serializers.load_npz(path, Darknet53(n)) returns *)
  YOLODataset : option string → bool;                (* YOLODataset(path, ...) returns *)
  plot_available : bool;                             (* extensions.PlotReport.available() *)
  cupy_random_seed : Z → bool;                       (* cuda.cupy.random.seed(seed) returns *)
  MultiprocessIterator_init : Z → Z → bool           (* MultiprocessIterator(train, batch_size, shared_mem=...) returns *)
}.

(** ** argparse *)

Module argparse.

Inductive ArgType := t_str | t_int | t_float.
Inductive Nargs := nargs_one | nargs_star.

(** One [parser.add_argument] call: the option strings, the attribute it
    stores to, [type=] and [nargs=]. *)
Record Action := {
  option_strings : list string;
  dest : string;
  type : ArgType;
  nargs : Nargs
}.

Inductive Value :=
| VStr (s : string)
| VInt (z : Z)
| VFloat (q : Q)
| VInts (l : list Z)
| VFloats (l : list Q).

(** Lines 26-43. *)
Definition actions : list Action := [
  {| option_strings := ["--names"]; dest := "names"; type := t_str; nargs := nargs_one |};
  {| option_strings := ["--train"]; dest := "train"; type := t_str; nargs := nargs_one |};
  {| option_strings := ["--valid"]; dest := "valid"; type := t_str; nargs := nargs_one |};
  {| option_strings := ["--detection"]; dest := "detection"; type := t_str; nargs := nargs_one |};
  {| option_strings := ["--batchsize"; "-b"]; dest := "batchsize"; type := t_int; nargs := nargs_one |};
  {| option_strings := ["--iteration"; "-i"]; dest := "iteration"; type := t_int; nargs := nargs_one |};
  {| option_strings := ["--gpus"; "-g"]; dest := "gpus"; type := t_int; nargs := nargs_star |};
  {| option_strings := ["--out"; "-o"]; dest := "out"; type := t_str; nargs := nargs_one |};
  {| option_strings := ["--seed"]; dest := "seed"; type := t_int; nargs := nargs_one |};
  {| option_strings := ["--display_interval"]; dest := "display_interval"; type := t_int; nargs := nargs_one |};
  {| option_strings := ["--snapshot_interval"]; dest := "snapshot_interval"; type := t_int; nargs := nargs_one |};
  {| option_strings := ["--ignore_thresh"]; dest := "ignore_thresh"; type := t_float; nargs := nargs_one |};
  {| option_strings := ["--thresh"]; dest := "thresh"; type := t_float; nargs := nargs_one |};
  {| option_strings := ["--darknet"]; dest := "darknet"; type := t_str; nargs := nargs_one |};
  {| option_strings := ["--darknet_class"]; dest := "darknet_class"; type := t_int; nargs := nargs_one |};
  {| option_strings := ["--steps"]; dest := "steps"; type := t_int; nargs := nargs_star |};
  {| option_strings := ["--scales"]; dest := "scales"; type := t_float; nargs := nargs_star |}
].

Inductive ParseResult (A : Type) :=
| Parsed (a : A)
| UsageError      (* parser.error: usage message, exit status 2 *)
| Unmodelled.     (* the command line uses a form outside the fragment below *)
Arguments Parsed {A} a.
Arguments UsageError {A}.
Arguments Unmodelled {A}.

(** How argparse sees one token of [sys.argv[1:]].  The fragment covers
    exact option strings, plain arguments and negative integers (the
    parser declares no option that looks like a negative number, so
    [-10200] is an argument).  Every other token that starts with a dash
    (an abbreviation, [--opt=value], [-h], a clustered short option, an
    unknown option, [--]) is left out. *)
Inductive Token :=
| TOpt (a : Action)
| TArg (s : string)
| TOther.

Definition is_digit (c : ascii) : bool :=
  let n := nat_of_ascii c in (48 <=? n)%nat && (n <=? 57)%nat.

Fixpoint all_digits (s : string) : bool :=
  match s with
  | EmptyString => true
  | String c s' => is_digit c && all_digits s'
  end.

Definition negative_number_like (s : string) : bool :=
  match s with
  | String "-" (String c s') => is_digit c && all_digits s'
  | _ => false
  end.

Definition find_action (tok : string) : option Action :=
  List.find (fun a => bool_decide (tok ∈ option_strings a)) actions.

Definition classify (tok : string) : Token :=
  match find_action tok with
  | Some a => TOpt a
  | None =>
      match tok with
      | String "-" EmptyString => TArg tok
      | String "-" _ => if negative_number_like tok then TArg tok else TOther
      | _ => TArg tok
      end
  end.

Section WithEnv.
Variable env : Env.

Fixpoint convert_all {A} (f : string → option A) (raw : list string) : option (list A) :=
  match raw with
  | [] => Some []
  | s :: raw' =>
      match f s, convert_all f raw' with
      | Some a, Some l => Some (a :: l)
      | _, _ => None
      end
  end.

(** The value an action stores for the argument strings it consumed;
    [None] is a usage error (wrong number of arguments, or the type
    conversion raised). *)
Definition get_values (a : Action) (raw : list string) : option Value :=
  match nargs a, type a, raw with
  | nargs_one, t_str, [s] => Some (VStr s)
  | nargs_one, t_int, [s] => VInt <$> py_int env s
  | nargs_one, t_float, [s] => VFloat <$> py_float env s
  | nargs_one, _, _ => None
  | nargs_star, t_int, _ => VInts <$> convert_all (py_int env) raw
  | nargs_star, t_float, _ => VFloats <$> convert_all (py_float env) raw
  | nargs_star, t_str, _ => None   (* no such action is declared *)
  end.

Definition close (cur : option (Action * list string)) (ns : gmap string Value)
  : option (gmap string Value) :=
  match cur with
  | None => Some ns
  | Some (a, raw) => v ← get_values a raw; Some (<[dest a := v]> ns)
  end.

(** The scan of the tokens, left to right.  [cur] is the option being
    filled and the argument strings seen for it so far; an argument
    string with no option to take it is an unrecognized argument. *)
Fixpoint scan (cur : option (Action * list string)) (ns : gmap string Value)
  (toks : list string) : ParseResult (gmap string Value) :=
  match toks with
  | [] => match close cur ns with Some ns' => Parsed ns' | None => UsageError end
  | tok :: rest =>
      match classify tok with
      | TOther => Unmodelled
      | TArg s =>
          match cur with
          | None => UsageError
          | Some (a, raw) => scan (Some (a, raw ++ [s])) ns rest
          end
      | TOpt a =>
          match close cur ns with
          | Some ns' => scan (Some (a, [])) ns' rest
          | None => UsageError
          end
      end
  end.

Definition get_str (ns : gmap string Value) (d : string) : option string :=
  match ns !! d with Some (VStr s) => Some s | _ => None end.
Definition get_int (ns : gmap string Value) (d : string) (dflt : Z) : Z :=
  match ns !! d with Some (VInt z) => z | _ => dflt end.
Definition get_float (ns : gmap string Value) (d : string) (dflt : Q) : Q :=
  match ns !! d with Some (VFloat q) => q | _ => dflt end.
Definition get_ints (ns : gmap string Value) (d : string) (dflt : list Z) : list Z :=
  match ns !! d with Some (VInts l) => l | _ => dflt end.
Definition get_floats (ns : gmap string Value) (d : string) (dflt : list Q) : list Q :=
  match ns !! d with Some (VFloats l) => l | _ => dflt end.

(** The namespace: what was given on the command line, else the
    [default=] of the declaration (lines 26-43). *)
Definition namespace (ns : gmap string Value) : Args := {|
  names := get_str ns "names";
  train := get_str ns "train";
  valid := default "" (get_str ns "valid");
  detection := default "" (get_str ns "detection");
  batchsize := get_int ns "batchsize" 8;
  iteration := get_int ns "iteration" 50200;
  gpus := get_ints ns "gpus" [];
  out := default "yolov3-result" (get_str ns "out");
  seed := get_int ns "seed" 0;
  display_interval := get_int ns "display_interval" 100;
  snapshot_interval := get_int ns "snapshot_interval" 100;
  ignore_thresh := get_float ns "ignore_thresh" 0.5;
  thresh := get_float ns "thresh" 0.5;
  darknet := default "" (get_str ns "darknet");
  darknet_class := get_int ns "darknet_class" (-1);
  steps := get_ints ns "steps" [-10200; -5200];
  scales := get_floats ns "scales" [0.1%Q; 0.1%Q]
|}.

(** An unmodelled token anywhere takes precedence: nothing is said
    about such a command line. *)
Definition parse_args (argv : list string) : ParseResult Args :=
  if forallb (fun tok => match classify tok with TOther => false | _ => true end) argv
  then match scan None ∅ argv with
       | Parsed ns => Parsed (namespace ns)
       | UsageError => UsageError
       | Unmodelled => Unmodelled
       end
  else Unmodelled.

End WithEnv.

End argparse.

(** ** Framework objects, by their constructor arguments *)

Inductive Hook :=
| WeightDecay (rate : Q)
| GradientClipping (threshold : Q).

(** [chainer.optimizers.MomentumSGD(lr=...)] and the hooks added to it. *)
Record MomentumSGD := {
  lr : Q;
  hooks : list (Hook * string)
}.

(** [chainer.iterators.MultiprocessIterator(train, batch_size, shared_mem=...)]. *)
Record MultiprocessIterator := {
  batch_size : Z;
  shared_mem : Z
}.

Inductive Updater :=
| StandardUpdater (device : Z)
| ParallelUpdater (devices : gmap string Z).

(** [YOLOv3(n_class, base, ignore_thresh=...)]; [base] is the class count
    of the [Darknet53] whose layers are reused, if any. *)
Record YOLOv3 := {
  n_class : Z;
  base : option Z;
  yolo_ignore_thresh : Q
}.

(** A trainer extension, by the arguments of its constructor call in
    [main].  Arguments that are the model, the optimizer, the dataset or
    an iterator are the ones [main] built and are not repeated. *)
Inductive Extension :=
| Evaluator (device : Z)
| dump_graph (root_name : string)
| LogReport (trigger : Z * string)
| PlotReport (y_keys : list string) (x_key : string) (trigger : Z * string) (file_name : string)
| PrintReport (entries : list string)
| ProgressBar (update_interval : Z)
| snapshot_object (filename : string)
| DarknetShift (attr : string) (max_iter : Z) (burn_in : Z) (lr_steps : list Z) (lr_scales : list Q)
| CropSizeUpdater (sizes : list Z) (cutoff : Z)
| YOLODetection (detector_thresh : Q) (images : list string) (size : Z * Z)
    (det_thresh : Q) (trigger : Z * string) (device : Z).

Global Instance Q_eq_dec : EqDecision Q.
Proof. solve_decision. Defined.
Global Instance Extension_eq_dec : EqDecision Extension.
Proof. solve_decision. Defined.

(** The [trigger=] argument of [trainer.extend]. *)
Inductive Trigger :=
| NoTrigger                                               (* not given *)
| Interval (t : Z * string)                               (* a (period, unit) tuple *)
| MinValueTrigger (key : string) (t : Z * string).        (* training.triggers.MinValueTrigger *)

(** ** The effects of [main] *)

(** What [main] mutates after the command line is parsed: the list object
    bound to [args.steps] (the local [steps] is a second name for the same
    object), the current CUDA device, where the model's parameters live,
    the optimizer's hooks and the trainer's extension registry. *)
Record St := {
  args_steps : list Z;
  current_device : option Z;
  model_device : option Z;          (* None: host memory *)
  optimizer_hooks : list (Hook * string);
  trainer_extensions : list (Extension * Trigger)
}.

Inductive Res (A : Type) :=
| Ok (a : A)
| Raise (e : string).
Arguments Ok {A} a.
Arguments Raise {A} e.

Definition M (A : Type) : Type := St → Res (A * St).

Global Instance M_ret : MRet M := λ A a st, Ok (a, st).
Global Instance M_bind : MBind M := λ A B f m st,
  match m st with
  | Ok (a, st') => f a st'
  | Raise e => Raise e
  end.

Definition raise {A} (e : string) : M A := λ _, Raise e.
Definition gets {A} (f : St → A) : M A := λ st, Ok (f st, st).
Definition modify (f : St → St) : M unit := λ st, Ok ((), f st).

Definition set_args_steps (l : list Z) (st : St) : St :=
  {| args_steps := l; current_device := current_device st;
     model_device := model_device st; optimizer_hooks := optimizer_hooks st;
     trainer_extensions := trainer_extensions st |}.
Definition set_current_device (d : Z) (st : St) : St :=
  {| args_steps := args_steps st; current_device := Some d;
     model_device := model_device st; optimizer_hooks := optimizer_hooks st;
     trainer_extensions := trainer_extensions st |}.
Definition set_model_device (d : option Z) (st : St) : St :=
  {| args_steps := args_steps st; current_device := current_device st;
     model_device := d; optimizer_hooks := optimizer_hooks st;
     trainer_extensions := trainer_extensions st |}.
Definition push_hook (h : Hook * string) (st : St) : St :=
  {| args_steps := args_steps st; current_device := current_device st;
     model_device := model_device st; optimizer_hooks := optimizer_hooks st ++ [h];
     trainer_extensions := trainer_extensions st |}.
Definition push_extension (e : Extension * Trigger) (st : St) : St :=
  {| args_steps := args_steps st; current_device := current_device st;
     model_device := model_device st; optimizer_hooks := optimizer_hooks st;
     trainer_extensions := trainer_extensions st ++ [e] |}.

(** [trainer.extend(ext, trigger=...)] *)
Definition extend (e : Extension) (t : Trigger) : M unit := modify (push_extension (e, t)).
(** [optimizer.add_hook(hook, name)] *)
Definition add_hook (h : Hook) (name : string) : M unit := modify (push_hook (h, name)).
(** [cuda.get_device_from_id(d).use()] *)
Definition use_device (d : Z) : M unit := modify (set_current_device d).
(** [model.to_gpu()]: to the current device. *)
Definition to_gpu : M unit := modify (λ st, set_model_device (current_device st) st).

Definition when (b : bool) (m : M unit) : M unit := if b then m else mret ().

Fixpoint for_each {A} (l : list A) (body : A → M unit) : M unit :=
  match l with
  | [] => mret ()
  | x :: l' => body x ≫= λ _, for_each l' body
  end.

Definition len {A} (l : list A) : Z := Z.of_nat (length l).
Definition len_str (s : string) : Z := Z.of_nat (String.length s).

(** Lines 141-142, the body of the loop over [steps] at index [i]. *)
Definition resolve_step (a : Args) (i : nat) : M unit := λ st,
  match args_steps st !! i with
  | Some v =>
      if v <? 0
      then Ok ((), set_args_steps (<[i := iteration a + v]> (args_steps st)) st)
      else Ok ((), st)
  | None => Raise "IndexError"
  end.

(** Lines 139-142: [for i in range(len(steps))]. *)
Definition resolve_steps (a : Args) : M unit :=
  n ← gets (λ st, length (args_steps st));
  for_each (seq 0 n) (resolve_step a).

(** Line 90: [devices['gpu{}'.format(gpu)] = gpu]. *)
Definition add_gpu (devices : gmap string Z) (gpu : Z) : gmap string Z :=
  <["gpu" +:+ pretty gpu := gpu]> devices.

(** Lines 88-90: the device dictionary of the parallel updater. *)
Definition parallel_devices (main_gpu : Z) (others : list Z) : gmap string Z :=
  fold_left add_gpu others {[ "main" := main_gpu ]}.

(** [l[0]] *)
Definition index0 (l : list Z) : M Z :=
  match l with
  | x :: _ => mret x
  | [] => raise "IndexError"
  end.

(** [range(lo, hi)] *)
Definition range (lo hi : Z) : list Z := seqZ lo (hi - lo).

(** A call of a collaborator that may raise. *)
Definition call {A} (what : string) (r : option A) : M A :=
  match r with
  | Some a => mret a
  | None => raise what
  end.
Definition check (what : string) (ok : bool) : M unit :=
  if ok then mret () else raise what.

(** [np.random.seed(seed)] with an integer: a seed outside
    [0 .. 2**32 - 1] raises [ValueError].  ([random.seed] of line 52
    takes every integer.) *)
Definition np_random_seed (seed : Z) : M unit :=
  check "ValueError" ((0 <=? seed) && (seed <? 2 ^ 32)).

(** ** [main] *)

(** What [main] has built when it reaches [trainer.run()]. *)
Record Run := {
  class_names : list string;
  darknet53 : option Z;              (* Darknet53(n), when --darknet is given *)
  yolov3 : YOLOv3;
  device : Z;
  optimizer : MomentumSGD;
  train_iter : MultiprocessIterator;
  updater : Updater;
  stop_trigger : Z * string;         (* Trainer(updater, stop_trigger, out=...) *)
  extensions : list (Extension * Trigger);   (* in registration order *)
  final : St
}.

(** Lines 50-167, after [args = parser.parse_args()].  The result is built
    at the last line from the values bound on the way and from the state. *)
Definition main_body (env : Env) (args : Args) : M Run :=
  (* 50 *)
  class_names ← call "load_list" (load_list env (names args));
  (* 52-53 *)
  np_random_seed (seed args);;
  (* 55-60 *)
  darknet53 ← (if len_str (darknet args) >? 0 then
                 let darknet_class :=
                   if darknet_class args >? 0 then darknet_class args
                   else len class_names in
                 check "load_npz" (load_npz env (darknet args) darknet_class);;
                 mret (Some darknet_class)
               else mret None);
  (* 61-62 *)
  let yolov3 := {| n_class := len class_names; base := darknet53;
                   yolo_ignore_thresh := ignore_thresh args |} in
  (* 63-69 *)
  device ← (if len (gpus args) >? 0 then
              device ← index0 (gpus args);
              check "cupy.random.seed" (cupy_random_seed env (seed args));;
              g ← index0 (gpus args);
              use_device g;;
              mret device
            else mret (-1));
  when (len (gpus args) =? 1) to_gpu;;
  (* 71-74 *)
  add_hook (WeightDecay 0.0005) "hook_decay";;
  add_hook (GradientClipping 10.0) "hook_grad_clip";;
  (* 76-82 *)
  check "YOLODataset" (YOLODataset env (train args));;
  check "MultiprocessIterator"
    (MultiprocessIterator_init env (batchsize args) ((448 ^ 2 * 3 + (1 + 4) * 100) * 4));;
  let train_iter := {| batch_size := batchsize args;
                       shared_mem := (448 ^ 2 * 3 + (1 + 4) * 100) * 4 |} in
  (* 84-92 *)
  updater ← (if len (gpus args) <=? 1 then
               mret (StandardUpdater device)
             else
               main_gpu ← index0 (gpus args);
               mret (ParallelUpdater (parallel_devices main_gpu (tail (gpus args)))));
  (* 93-97 *)
  let stop_trigger := (iteration args, "iteration") in
  let display_interval := (display_interval args, "iteration") in
  let snapshot_interval := (snapshot_interval args, "iteration") in
  (* 99-114 *)
  let valid_given := len_str (valid args) >? 0 in
  let print_entries :=
    if valid_given
    then ["epoch"; "iteration"; "main/loss"; "validation/main/loss"; "elapsed_time"]
    else ["epoch"; "iteration"; "main/loss"; "elapsed_time"] in
  let plot_keys :=
    if valid_given then ["main/loss"; "validation/main/loss"] else ["main/loss"] in
  let snapshot_key :=
    if valid_given then "validation/main/loss" else "main/loss" in
  when valid_given
    (check "YOLODataset" (YOLODataset env (Some (valid args)));;
     extend (Evaluator device) (Interval display_interval));;
  (* 116-126 *)
  extend (dump_graph "main/loss") NoTrigger;;
  extend (LogReport display_interval) NoTrigger;;
  when (plot_available env)
    (extend (PlotReport plot_keys "iteration" display_interval "loss.png") NoTrigger);;
  extend (PrintReport print_entries) (Interval display_interval);;
  extend (ProgressBar 1) NoTrigger;;
  (* 128-137 *)
  extend (snapshot_object "yolov3_snapshot.npz")
    (MinValueTrigger snapshot_key snapshot_interval);;
  extend (snapshot_object "yolov3_backup.npz") (Interval snapshot_interval);;
  extend (snapshot_object "yolov3_final.npz") (Interval (iteration args, "iteration"));;
  (* 139-143 *)
  resolve_steps args;;
  steps ← gets args_steps;
  let scales := scales args in
  (* 147-153 *)
  extend (DarknetShift "steps" (iteration args) 1000 steps scales) NoTrigger;;
  extend (CropSizeUpdater (map (λ i, (10 + i) * 32) (range 0 5)) (iteration args - 200))
    NoTrigger;;
  (* 155-162 *)
  when (negb (len_str (detection args) =? 0))
    (images ← call "load_list" (load_list env (Some (detection args)));
     extend (YOLODetection (thresh args) images (416, 416) (thresh args)
               display_interval device) NoTrigger);;
  (* 167 *)
  st ← gets id;
  mret {| class_names := class_names; darknet53 := darknet53; yolov3 := yolov3;
          device := device;
          optimizer := {| lr := 0.001; hooks := optimizer_hooks st |};
          train_iter := train_iter; updater := updater;
          stop_trigger := stop_trigger;
          extensions := trainer_extensions st; final := st |}.

Inductive Outcome :=
| Running (r : Run)         (* control reaches trainer.run() *)
| UsageExit                 (* argparse reported a usage error: exit status 2 *)
| Uncaught (e : string)     (* an exception leaves main: exit status 1 *)
| NotModelled.              (* the command line is outside the modelled fragment *)

Definition initial (args : Args) : St :=
  {| args_steps := steps args; current_device := None; model_device := None;
     optimizer_hooks := []; trainer_extensions := [] |}.

Definition main (env : Env) (argv : list string) : Outcome :=
  match argparse.parse_args env argv with
  | argparse.Parsed args =>
      match main_body env args (initial args) with
      | Ok (r, _) => Running r
      | Raise e => Uncaught e
      end
  | argparse.UsageError => UsageExit
  | argparse.Unmodelled => NotModelled
  end.

(** ** The trainer loop

    [chainer.training.Trainer.run] and the triggers are framework code.
    The model below follows chainer's [IntervalTrigger] and
    [BestValueTrigger] for the unit ['iteration'], the only unit [main]
    passes.  The training computation itself is an oracle: [mean key t] is
    the mean of the values reported under [key] since the previous check,
    as [DictSummary.compute_mean] returns it at iteration [t].  Which keys
    the observation of an iteration holds is followed through the
    iteration, since a best-value trigger raises when its key is missing. *)

Module trainer.

(** The state of a trigger: the iteration of its last call, and for a
    best-value trigger the best value so far and whether its summary holds
    a value of its key since the last check. *)
Record TriggerState := {
  previous_iteration : Z;
  best_value : option Q;
  observed : bool
}.

Definition fresh : TriggerState :=
  {| previous_iteration := 0; best_value := None; observed := false |}.

Inductive Event :=
| update (t : Z)                     (* updater.update() completed iteration t *)
| fired (e : Extension) (t : Z).     (* the extension acted at iteration t *)

Inductive RunResult :=
| Finished (trace : list Event)
| Crashed (e : string)
| OutOfFuel.

(** [IntervalTrigger.__call__]:
    [fire = previous_iteration // period != iteration // period], then
    the current iteration is saved. *)
Definition interval (period : Z) (s : TriggerState) (t : Z) : Res (bool * TriggerState) :=
  if period =? 0 then Raise "ZeroDivisionError"
  else Ok (negb (previous_iteration s / period =? t / period),
           {| previous_iteration := t; best_value := best_value s;
              observed := observed s |}).

(** Modelled from the spec: the loss link (lib/links/loss.py) is not
    under src/.  The spec has the training loss as the metric the best
    snapshot tracks when there is no validation set, and [main] names it
    ['main/loss'] (lines 99-101).  [trainer.observation] is emptied before
    every iteration; after [updater.update()] it holds that key. *)
Definition reported_by_update : list string := ["main/loss"].

(** The keys an extension adds to the observation when it acts: the
    evaluator reports the loss on the validation set as
    ['validation/main/loss']. *)
Definition reports (e : Extension) : list string :=
  match e with
  | Evaluator _ => ["validation/main/loss"]
  | _ => []
  end.

(** [summary.add] of a best-value trigger. *)
Definition observe (s : TriggerState) : TriggerState :=
  {| previous_iteration := previous_iteration s; best_value := best_value s;
     observed := true |}.

Section WithMetrics.
Variable mean : string → Z → Q.

(** [BestValueTrigger.__call__] with [compare = new < best].  At every
    call the value of the key, if the observation [obs] has it, is added
    to the summary.  Nothing else happens between checks.  At a check the
    mean of the summary is read, which raises [KeyError] when the key was
    not observed since the last check, and the summary is emptied; the
    trigger fires when there is no best value yet or when the mean is
    strictly below the best one.  [mean key t] is the mean read at a
    check at iteration [t]. *)
Definition min_value (obs : list string) (key : string) (period : Z)
  (s : TriggerState) (t : Z) : Res (bool * TriggerState) :=
  let s := if bool_decide (key ∈ obs) then observe s else s in
  match interval period s t with
  | Raise e => Raise e
  | Ok (false, s') => Ok (false, s')
  | Ok (true, s') =>
      if observed s' then
        let value := mean key t in
        match best_value s' with
        | None =>
            Ok (true, {| previous_iteration := t; best_value := Some value;
                         observed := false |})
        | Some best =>
            if negb (Qle_bool best value)
            then Ok (true, {| previous_iteration := t; best_value := Some value;
                              observed := false |})
            else Ok (false, {| previous_iteration := t; best_value := Some best;
                               observed := false |})
        end
      else Raise "KeyError"
  end.

(** Whether a registered extension acts at iteration [t], given the
    keys [obs] observed so far in this iteration.  With a [trigger=] given
    to [extend], that trigger decides.  Without one, the framework's
    reporting extensions are called at every iteration and decide
    themselves: [LogReport] and [PlotReport] by the trigger they were
    constructed with, [ProgressBar] by
    [iteration % update_interval == 0].  The remaining extensions run
    on a schedule of their own and are not recorded. *)
Definition fires (obs : list string) (e : Extension * Trigger) (s : TriggerState) (t : Z)
  : Res (bool * TriggerState) :=
  match snd e with
  | Interval (period, _) => interval period s t
  | MinValueTrigger key (period, _) => min_value obs key period s t
  | NoTrigger =>
      match fst e with
      | LogReport (period, _) => interval period s t
      | PlotReport _ _ (period, _) _ => interval period s t
      | ProgressBar n =>
          if n =? 0 then Raise "ZeroDivisionError" else Ok (t mod n =? 0, s)
      | _ => Ok (false, s)
      end
  end.

(** The extensions of one iteration, in registration order; an extension
    that acts adds what it reports to the observation the later triggers
    see.  (The framework visits the extensions by priority; the evaluator
    has the highest one and is also registered first, so in either order
    it acts before the snapshot triggers are called.) *)
Fixpoint fire_all (obs : list string)
  (entries : list (Extension * Trigger * TriggerState)) (t : Z)
  : Res (list Event * list (Extension * Trigger * TriggerState)) :=
  match entries with
  | [] => Ok ([], [])
  | (e, s) :: rest =>
      match fires obs e s t with
      | Raise x => Raise x
      | Ok (b, s') =>
          match fire_all (if b then reports (fst e) ++ obs else obs) rest t with
          | Raise x => Raise x
          | Ok (evs, rest') =>
              Ok ((if b then [fired (fst e) t] else []) ++ evs, (e, s') :: rest')
          end
      end
  end.

(** [while not stop_trigger(self): update(); <extensions>] from
    iteration [t] on. *)
Fixpoint loop (fuel : nat) (stop : Z) (stop_state : TriggerState)
  (entries : list (Extension * Trigger * TriggerState)) (t : Z) : RunResult :=
  match fuel with
  | O => OutOfFuel
  | S fuel' =>
      match interval stop stop_state t with
      | Raise x => Crashed x
      | Ok (true, _) => Finished []
      | Ok (false, stop_state') =>
          let t' := t + 1 in
          match fire_all reported_by_update entries t' with
          | Raise x => Crashed x
          | Ok (evs, entries') =>
              match loop fuel' stop stop_state' entries' t' with
              | Finished trace => Finished (update t' :: evs ++ trace)
              | r => r
              end
          end
      end
  end.

(** [trainer.run()] on what [main] built. *)
Definition run (fuel : nat) (r : Run) : RunResult :=
  loop fuel (fst (stop_trigger r)) fresh
    (map (λ e, (e, fresh)) (extensions r)) 0.

End WithMetrics.

Definition updates (trace : list Event) : list Z :=
  omap (λ ev, match ev with update t => Some t | _ => None end) trace.

(** The iterations at which an extension selected by [sel] acted. *)
Definition firings (sel : Extension → bool) (trace : list Event) : list Z :=
  omap (λ ev, match ev with
              | fired e t => if sel e then Some t else None
              | update _ => None
              end) trace.

(** The iterations of [l] that are multiples of [period]. *)
Definition multiples_of (period : Z) (l : list Z) : list Z :=
  List.filter (λ t, t mod period =? 0) l.

(** The entries whose extension [sel] selects. *)
Definition keep (sel : Extension → bool)
  (entry : Extension * Trigger * TriggerState) : bool :=
  sel (fst (fst entry)).


(** The invariant of the minimum-value trigger after iteration [t]: the
    best value it holds is a lower bound of the metric at every check so
    far, and it holds none before the first check. *)
Definition best_below (mean : string → Z → Q) (key : string) (p : Z) (t : Z)
  (s : TriggerState) : Prop :=
  match best_value s with
  | None => ∀ t', 0 < t' ≤ t → t' mod p ≠ 0
  | Some best => ∀ t', 0 < t' ≤ t → t' mod p = 0 → (best <= mean key t')%Q
  end.


End trainer.

(** ** Selecting extensions *)

Definition writes (file : string) (e : Extension) : bool :=
  match e with
  | snapshot_object f => String.eqb f file
  | _ => false
  end.

Definition is_LogReport (e : Extension) : bool :=
  match e with LogReport _ => true | _ => false end.
Definition is_PlotReport (e : Extension) : bool :=
  match e with PlotReport _ _ _ _ => true | _ => false end.
Definition is_PrintReport (e : Extension) : bool :=
  match e with PrintReport _ => true | _ => false end.
Definition is_ProgressBar (e : Extension) : bool :=
  match e with ProgressBar _ => true | _ => false end.
Definition is_DarknetShift (e : Extension) : bool :=
  match e with DarknetShift _ _ _ _ _ => true | _ => false end.
Definition is_CropSizeUpdater (e : Extension) : bool :=
  match e with CropSizeUpdater _ _ => true | _ => false end.

(** The registered entries whose extension [sel] selects. *)
Definition registered (sel : Extension → bool) (r : Run) : list (Extension * Trigger) :=
  List.filter (λ entry, sel (fst entry)) (extensions r).

(** ** What the extensions do to the training state *)

Inductive StateField :=
| model_parameters
| optimizer_state
| learning_rate
| crop_size
| iteration_counter.

(** Modelled from the spec: the extension classes are not under src/
    ([DarknetShift] and [CropSizeUpdater] live in lib/extensions, the
    reporting ones in the framework).  Section 4.5 of the spec: the logger,
    printer, plotter and progress bar are purely observational; no
    extension alters the loop except the learning-rate and crop schedulers,
    which mutate the optimizer and dataset configuration. *)
Definition alters (e : Extension) : list StateField :=
  match e with
  | DarknetShift _ _ _ _ _ => [learning_rate]
  | CropSizeUpdater _ _ => [crop_size]
  | _ => []
  end.

(** Modelled from the spec: lib/extensions/crop_size_updater.py is not
    under src/.  Section 8 of the spec: for an iteration [t] before the
    cutoff the selected size is a deterministic function of [t] drawn from
    the candidate list; from the cutoff on the size is frozen.  The spec
    does not give the function, so the choice of the index is the
    parameter [pick]; an index outside the list raises. *)
Definition crop_size_update (pick : Z → nat) (sizes : list Z) (cutoff : Z)
  (t : Z) (current : Z) : Res Z :=
  if t <? cutoff
  then match sizes !! pick t with
       | Some size => Ok size
       | None => Raise "IndexError"
       end
  else Ok current.

(** The buffer size in the words of the spec (section 5):
    [(image_area*channels + (1+box_fields)*max_boxes) * bytes_per_element]. *)
Definition spec_buffer_size (image_side channels box_fields max_boxes bytes_per_element : Z) : Z :=
  (image_side * image_side * channels + (1 + box_fields) * max_boxes) * bytes_per_element.

(** ** An installation for the examples *)

Fixpoint decimal (acc : Z) (s : string) : option Z :=
  match s with
  | EmptyString => Some acc
  | String c s' =>
      if argparse.is_digit c
      then decimal (10 * acc + (Z.of_nat (nat_of_ascii c) - 48)) s'
      else None
  end.

(** [int(s)] on plain decimal strings; other strings raise here. *)
Definition int_of_decimal (s : string) : option Z :=
  match s with
  | EmptyString => None
  | String "-" EmptyString => None
  | String "-" s' => Z.opp <$> decimal 0 s'
  | _ => decimal 0 s
  end.

(** Every file given is readable and the names file lists two classes;
    a path that is [None] makes the reader raise.  The GPU generator takes
    every seed, and the iterator starts for a positive batch size. *)
Definition example_env : Env := {|
  py_int := int_of_decimal;
  py_float := λ _, None;
  load_list := λ path, match path with Some _ => Some ["person"; "car"] | None => None end;
  load_npz := λ _ _, true;
  YOLODataset := λ path, match path with Some _ => true | None => false end;
  plot_available := true;
  cupy_random_seed := λ _, true;
  MultiprocessIterator_init := λ batch_size _, 0 <? batch_size
|}.

Definition example_argv : list string :=
  ["--names"; "voc.names"; "--train"; "train.txt"; "--iteration"; "4";
   "--display_interval"; "2"; "--snapshot_interval"; "2"].


(** A pretrained backbone with the class count given as 0. *)
Definition darknet_argv : list string :=
  ["--names"; "voc.names"; "--train"; "train.txt";
   "--darknet"; "darknet53.npz"; "--darknet_class"; "0"].

(** Two GPUs. *)
Definition gpu_argv : list string :=
  ["--names"; "voc.names"; "--train"; "train.txt"; "--gpus"; "0"; "1"].

(** A step boundary that is still negative after the shift, and one
    that is given as an absolute iteration. *)
Definition steps_argv : list string :=
  ["--names"; "voc.names"; "--train"; "train.txt"; "--iteration"; "100";
   "--steps"; "-150"; "-20"; "90"].

(** A loss that falls and then rises again. *)
Definition example_mean (key : string) (t : Z) : Q :=
  inject_Z ((t - 2) * (t - 2)).

(** ** Closed forms used in the proofs *)

(** What the loop over [steps] leaves in the list. *)
Definition resolved (total : Z) (l : list Z) : list Z :=
  map (λ v, if v <? 0 then total + v else v) l.

Definition device_of (gpus : list Z) : Z :=
  match gpus with
  | g :: _ => g
  | [] => -1
  end.

Definition updater_of (gpus : list Z) : Updater :=
  match gpus with
  | [] => StandardUpdater (-1)
  | [g] => StandardUpdater g
  | g :: others => ParallelUpdater (parallel_devices g others)
  end.

Definition darknet_class_of (args : Args) (class_names : list string) : option Z :=
  if len_str (darknet args) >? 0
  then Some (if darknet_class args >? 0 then darknet_class args else len class_names)
  else None.

Definition snapshot_key_of (args : Args) : string :=
  if len_str (valid args) >? 0 then "validation/main/loss" else "main/loss".

(** The extension registry at [trainer.run()], in registration order. *)
Definition registry (args : Args) (plot : bool) (images : list string)
  : list (Extension * Trigger) :=
  let display := (display_interval args, "iteration") in
  let snapshot := (snapshot_interval args, "iteration") in
  let given := len_str (valid args) >? 0 in
  (if given then [(Evaluator (device_of (gpus args)), Interval display)] else []) ++
  [(dump_graph "main/loss", NoTrigger); (LogReport display, NoTrigger)] ++
  (if plot
   then [(PlotReport (if given then ["main/loss"; "validation/main/loss"]
                      else ["main/loss"]) "iteration" display "loss.png", NoTrigger)]
   else []) ++
  [(PrintReport (if given
                 then ["epoch"; "iteration"; "main/loss"; "validation/main/loss";
                       "elapsed_time"]
                 else ["epoch"; "iteration"; "main/loss"; "elapsed_time"]),
    Interval display);
   (ProgressBar 1, NoTrigger);
   (snapshot_object "yolov3_snapshot.npz", MinValueTrigger (snapshot_key_of args) snapshot);
   (snapshot_object "yolov3_backup.npz", Interval snapshot);
   (snapshot_object "yolov3_final.npz", Interval (iteration args, "iteration"));
   (DarknetShift "steps" (iteration args) 1000
      (resolved (iteration args) (steps args)) (scales args), NoTrigger);
   (CropSizeUpdater [320; 352; 384; 416; 448] (iteration args - 200), NoTrigger)] ++
  (if negb (len_str (detection args) =? 0)
   then [(YOLODetection (thresh args) images (416, 416) (thresh args) display
            (device_of (gpus args)), NoTrigger)]
   else []).

(** The state [main] reaches, in closed form. *)
Definition final_state (args : Args) (plot : bool) (images : list string) : St :=
  {| args_steps := resolved (iteration args) (steps args);
     current_device := match gpus args with g :: _ => Some g | [] => None end;
     model_device := match gpus args with [g] => Some g | _ => None end;
     optimizer_hooks := [(WeightDecay 0.0005, "hook_decay");
                         (GradientClipping 10.0, "hook_grad_clip")];
     trainer_extensions := registry args plot images |}.

(** ** Notions used by the further properties *)

(** [l] is in non-decreasing order. *)
Definition nondecreasing (l : list Z) : Prop :=
  ∀ (i j : nat) (x y : Z), (i ≤ j)%nat → l !! i = Some x → l !! j = Some y → x ≤ y.

(** A state whose list of step boundaries is [l]. *)
Definition state_with_steps (l : list Z) : St :=
  {| args_steps := l; current_device := None; model_device := None;
     optimizer_hooks := []; trainer_extensions := [] |}.


(** Selectors for the evaluator and the detection preview. *)
Definition is_Evaluator (e : Extension) : bool :=
  match e with Evaluator _ => true | _ => false end.
Definition is_YOLODetection (e : Extension) : bool :=
  match e with YOLODetection _ _ _ _ _ _ => true | _ => false end.

(** The device an updater computes the main model on. *)
Definition main_device (u : Updater) : option Z :=
  match u with
  | StandardUpdater d => Some d
  | ParallelUpdater devices => devices !! "main"
  end.

(** The device an extension is constructed with, if it takes one. *)
Definition extension_device (e : Extension) : option Z :=
  match e with
  | Evaluator d => Some d
  | YOLODetection _ _ _ _ _ d => Some d
  | _ => None
  end.

(** The [parser.add_argument] call that stores to the attribute [d]. *)
Definition declared (d : string) : option argparse.Action :=
  List.find (λ a, bool_decide (argparse.dest a = d)) argparse.actions.

(** A token, with a short option string replaced by the first option
    string of its declaration ([-b] by [--batchsize]). *)
Definition canon (tok : string) : string :=
  match argparse.find_action tok with
  | Some a => default tok (head (argparse.option_strings a))
  | None => tok
  end.

(** * Proofs *)

(** ** The loop over [steps] *)

Section ResolveSteps.
Variable a : Args.

Lemma resolve_step_run (i : nat) (st : St) (v : Z) :
  args_steps st !! i = Some v →
  resolve_step a i st =
    Ok ((), set_args_steps
              (<[i := if v <? 0 then iteration a + v else v]> (args_steps st)) st).
Proof.
  intros Hv. unfold resolve_step. rewrite Hv.
  destruct (v <? 0); [done|].
  rewrite list_insert_id by done. by destruct st.
Qed.

(** Running the loop from index [k] on, with the entries before [k]
    already visited. *)
Lemma for_each_resolve (m k : nat) (done_ todo : list Z) (st : St) :
  args_steps st = done_ ++ todo →
  length done_ = k →
  length todo = m →
  for_each (seq k m) (resolve_step a) st =
    Ok ((), set_args_steps (done_ ++ resolved (iteration a) todo) st).
Proof.
  revert k done_ todo st.
  induction m as [|m IH]; intros k done_ todo st Hst Hk Hm.
  - destruct todo; [|done]. simpl. rewrite <- Hst. by destruct st.
  - destruct todo as [|v todo]; [done|]. simpl in Hm.
    change (seq k (S m)) with (k :: seq (S k) m).
    cbn [for_each]. unfold mbind, M_bind.
    rewrite (resolve_step_run k st v).
    2:{ rewrite Hst, lookup_app_r by lia. by replace (k - length done_)%nat with 0%nat by lia. }
    rewrite (IH (S k) (done_ ++ [if v <? 0 then iteration a + v else v]) todo).
    + simpl. by rewrite <- app_assoc.
    + simpl. rewrite Hst, <- Hk.
      rewrite insert_app_r_alt by lia.
      replace (length done_ - length done_)%nat with 0%nat by lia.
      simpl. by rewrite <- app_assoc.
    + rewrite length_app. simpl. lia.
    + lia.
Qed.

Lemma resolve_steps_run (st : St) :
  resolve_steps a st =
    Ok ((), set_args_steps (resolved (iteration a) (args_steps st)) st).
Proof.
  unfold resolve_steps, mbind, M_bind, gets.
  by rewrite (for_each_resolve _ 0 [] (args_steps st)).
Qed.

End ResolveSteps.

(** ** The effects, step by step *)

Lemma bind_Ok {A B} (m : M A) (f : A → M B) (st st' : St) (b : B) :
  (m ≫= f) st = Ok (b, st') →
  ∃ a st1, m st = Ok (a, st1) ∧ f a st1 = Ok (b, st').
Proof.
  unfold mbind, M_bind. destruct (m st) as [[a st1]|e]; [|done].
  intros H. by exists a, st1.
Qed.

Lemma ret_Ok {A} (a a' : A) (st st' : St) :
  (mret a : M A) st = Ok (a', st') → a' = a ∧ st' = st.
Proof. unfold mret, M_ret. by intros [= <- <-]. Qed.

Lemma call_Ok {A} (what : string) (r : option A) (st st' : St) (a : A) :
  call what r st = Ok (a, st') → r = Some a ∧ st' = st.
Proof. destruct r; [|done]. by intros [= <- <-]. Qed.

Lemma check_Ok (what : string) (ok : bool) (st st' : St) (u : unit) :
  check what ok st = Ok (u, st') → ok = true ∧ st' = st.
Proof. destruct ok; [|done]. by intros [= <- <-]. Qed.

Lemma modify_Ok (f : St → St) (st st' : St) (u : unit) :
  modify f st = Ok (u, st') → st' = f st.
Proof. by intros [= <- <-]. Qed.

Lemma gets_Ok {A} (f : St → A) (st st' : St) (a : A) :
  gets f st = Ok (a, st') → a = f st ∧ st' = st.
Proof. by intros [= <- <-]. Qed.

Lemma when_Ok (b : bool) (m : M unit) (st st' : St) (u : unit) :
  when b m st = Ok (u, st') →
  if b then m st = Ok (u, st') else st' = st.
Proof. destruct b; [done|]. by intros [= <- <-]. Qed.

Ltac bind_inv H a st H1 :=
  apply bind_Ok in H as (a & st & H1 & H).

Lemma extend_Ok (e : Extension) (t : Trigger) (st st' : St) (u : unit) :
  extend e t st = Ok (u, st') → st' = push_extension (e, t) st.
Proof. apply modify_Ok. Qed.

Lemma add_hook_Ok (h : Hook) (name : string) (st st' : St) (u : unit) :
  add_hook h name st = Ok (u, st') → st' = push_hook (h, name) st.
Proof. apply modify_Ok. Qed.

Lemma len_cons {A} (x : A) (l : list A) : len (x :: l) = 1 + len l.
Proof. unfold len. simpl. lia. Qed.

Lemma len_nonneg {A} (l : list A) : 0 ≤ len l.
Proof. unfold len. lia. Qed.

Lemma main_body_Ok (env : Env) (args : Args) (r : Run) (st : St) :
  main_body env args (initial args) = Ok (r, st) →
  ∃ cn images,
    load_list env (names args) = Some cn ∧
    st = final_state args (plot_available env) images ∧
    r = {| class_names := cn;
           darknet53 := darknet_class_of args cn;
           yolov3 := {| n_class := len cn; base := darknet_class_of args cn;
                        yolo_ignore_thresh := ignore_thresh args |};
           device := device_of (gpus args);
           optimizer := {| lr := 0.001;
                           hooks := [(WeightDecay 0.0005, "hook_decay");
                                     (GradientClipping 10.0, "hook_grad_clip")] |};
           train_iter := {| batch_size := batchsize args;
                            shared_mem := (448 ^ 2 * 3 + (1 + 4) * 100) * 4 |};
           updater := updater_of (gpus args);
           stop_trigger := (iteration args, "iteration");
           extensions := registry args (plot_available env) images;
           final := st |}.
Proof.
  unfold main_body. intros H.
  (* 50 *)
  bind_inv H cn st1 H1. apply call_Ok in H1 as [Hcn ->].
  exists cn.
  (* 52-53 *)
  bind_inv H u0 st1 H1. apply check_Ok in H1 as [_ ->].
  (* 55-60 *)
  bind_inv H dk st1 H1.
  assert (dk = darknet_class_of args cn ∧ st1 = initial args) as [-> ->].
  { unfold darknet_class_of. destruct (len_str (darknet args) >? 0).
    - bind_inv H1 u st2 H2. apply check_Ok in H2 as [_ ->].
      by apply ret_Ok in H1 as [-> ->].
    - by apply ret_Ok in H1 as [-> ->]. }
  clear H1.
  (* 63-67 *)
  bind_inv H dev st1 H1.
  assert (dev = device_of (gpus args) ∧
          st1 = match gpus args with
                | g :: _ => set_current_device g (initial args)
                | [] => initial args
                end) as [-> ->].
  { destruct (gpus args) as [|g gs].
    - by apply ret_Ok in H1 as [-> ->].
    - replace (len (g :: gs) >? 0) with true in H1
        by (rewrite len_cons; pose proof (len_nonneg gs); lia).
      bind_inv H1 d st2 H2. apply ret_Ok in H2 as [-> ->].
      bind_inv H1 u st2 H2. apply check_Ok in H2 as [_ ->].
      bind_inv H1 d st2 H2. apply ret_Ok in H2 as [-> ->].
      bind_inv H1 u' st2 H2. apply modify_Ok in H2 as ->.
      by apply ret_Ok in H1 as [-> ->]. }
  clear H1.
  (* 68-69 *)
  bind_inv H u st1 H1. apply when_Ok in H1.
  (* 71-74 *)
  bind_inv H u1 st2 H2. apply add_hook_Ok in H2 as ->.
  bind_inv H u2 st2 H2. apply add_hook_Ok in H2 as ->.
  (* 76-82 *)
  bind_inv H u3 st2 H2. apply check_Ok in H2 as [_ ->].
  bind_inv H u3' st2 H2. apply check_Ok in H2 as [_ ->].
  (* 84-92 *)
  bind_inv H upd st2 H2.
  assert (upd = updater_of (gpus args) ∧
          st1 = match gpus args with
                | [] => initial args
                | [g] => set_model_device (Some g) (set_current_device g (initial args))
                | g :: _ => set_current_device g (initial args)
                end ∧
          st2 = push_hook (GradientClipping 10.0, "hook_grad_clip")
                  (push_hook (WeightDecay 0.0005, "hook_decay") st1)) as (-> & Hst1 & ->).
  { destruct (gpus args) as [|g [|g' gs]].
    - change (len []) with 0 in *. simpl in H1. subst st1.
      by apply ret_Ok in H2 as [-> ->].
    - change (len [g]) with 1 in *. simpl in H1.
      apply modify_Ok in H1 as ->.
      by apply ret_Ok in H2 as [-> ->].
    - assert ((len (g :: g' :: gs) =? 1) = false ∧
              (len (g :: g' :: gs) <=? 1) = false) as [E1 E2]
        by (rewrite !len_cons; pose proof (len_nonneg gs); lia).
      rewrite E1 in H1. rewrite E2 in H2. subst st1.
      bind_inv H2 d st3 H3. apply ret_Ok in H3 as [-> ->].
      by apply ret_Ok in H2 as [-> ->]. }
  clear H1 H2.
  (* 99-114 *)
  bind_inv H u4 st2 H2. apply when_Ok in H2.
  assert (st2 = if len_str (valid args) >? 0
                then push_extension
                       (Evaluator (device_of (gpus args)),
                        Interval (display_interval args, "iteration"))
                       (push_hook (GradientClipping 10.0, "hook_grad_clip")
                          (push_hook (WeightDecay 0.0005, "hook_decay") st1))
                else push_hook (GradientClipping 10.0, "hook_grad_clip")
                       (push_hook (WeightDecay 0.0005, "hook_decay") st1)) as ->.
  { destruct (len_str (valid args) >? 0); [|done].
    bind_inv H2 u5 st3 H3. apply check_Ok in H3 as [_ ->].
    by apply extend_Ok in H2. }
  clear H2.
  (* 116-126 *)
  bind_inv H u5 st2 H2. apply extend_Ok in H2 as ->.
  bind_inv H u6 st2 H2. apply extend_Ok in H2 as ->.
  bind_inv H u7 st2 H2. apply when_Ok in H2.
  bind_inv H u8 st3 H3. apply extend_Ok in H3 as ->.
  bind_inv H u9 st3 H3. apply extend_Ok in H3 as ->.
  (* 128-137 *)
  bind_inv H u10 st3 H3. apply extend_Ok in H3 as ->.
  bind_inv H u11 st3 H3. apply extend_Ok in H3 as ->.
  bind_inv H u12 st3 H3. apply extend_Ok in H3 as ->.
  (* 139-143 *)
  bind_inv H u13 st3 H3. rewrite resolve_steps_run in H3. injection H3 as _ <-.
  bind_inv H stp st3 H3. apply gets_Ok in H3 as [-> ->].
  (* 147-153 *)
  bind_inv H u14 st3 H3. apply extend_Ok in H3 as ->.
  bind_inv H u15 st3 H3. apply extend_Ok in H3 as ->.
  (* 155-162 *)
  bind_inv H u16 st3 H3. apply when_Ok in H3.
  bind_inv H st4 st5 H4. apply gets_Ok in H4 as [-> ->].
  apply ret_Ok in H as [-> ->].
  exists (default [] (load_list env (Some (detection args)))).
  split; [done|].
  assert (st3 = final_state args (plot_available env)
                  (default [] (load_list env (Some (detection args))))) as ->.
  { unfold final_state, registry, snapshot_key_of.
    destruct (negb (len_str (detection args) =? 0)).
    - bind_inv H3 imgs st6 H4. apply call_Ok in H4 as [-> ->].
      apply extend_Ok in H3 as ->. simpl default.
      destruct (plot_available env);
        [apply extend_Ok in H2 as ->|subst st2];
        subst st1; destruct (len_str (valid args) >? 0);
        by destruct (gpus args) as [|g [|g' gs]].
    - subst st3.
      destruct (plot_available env);
        [apply extend_Ok in H2 as ->|subst st2];
        subst st1; destruct (len_str (valid args) >? 0);
        by destruct (gpus args) as [|g [|g' gs]]. }
  done.
Qed.

Lemma main_Running (env : Env) (argv : list string) (args : Args) (r : Run) :
  argparse.parse_args env argv = argparse.Parsed args →
  main env argv = Running r →
  ∃ cn images,
    load_list env (names args) = Some cn ∧
    r = {| class_names := cn;
           darknet53 := darknet_class_of args cn;
           yolov3 := {| n_class := len cn; base := darknet_class_of args cn;
                        yolo_ignore_thresh := ignore_thresh args |};
           device := device_of (gpus args);
           optimizer := {| lr := 0.001;
                           hooks := [(WeightDecay 0.0005, "hook_decay");
                                     (GradientClipping 10.0, "hook_grad_clip")] |};
           train_iter := {| batch_size := batchsize args;
                            shared_mem := (448 ^ 2 * 3 + (1 + 4) * 100) * 4 |};
           updater := updater_of (gpus args);
           stop_trigger := (iteration args, "iteration");
           extensions := registry args (plot_available env) images;
           final := final_state args (plot_available env) images |}.
Proof.
  intros Hparse Hmain. unfold main in Hmain. rewrite Hparse in Hmain.
  destruct (main_body env args (initial args)) as [[r' st]|e] eqn:Hbody; [|done].
  injection Hmain as ->.
  apply main_body_Ok in Hbody as (cn & images & Hcn & -> & ->).
  by exists cn, images.
Qed.

Lemma main_Running_parsed (env : Env) (argv : list string) (r : Run) :
  main env argv = Running r →
  ∃ args, argparse.parse_args env argv = argparse.Parsed args.
Proof.
  unfold main. destruct (argparse.parse_args env argv) as [args| |]; [|done..].
  by exists args.
Qed.

(** ** The registry, entry by entry *)

(** The registry has one of eight shapes, by whether a validation set, the
    plotting backend and a detection list are there. *)
Ltac registry_split args env :=
  unfold registry, snapshot_key_of;
  destruct (len_str (valid args) >? 0), (plot_available env),
    (negb (len_str (detection args) =? 0)).

Ltac registry_cases args env :=
  unfold registered; cbn [extensions]; registry_split args env; reflexivity.

(** ** The device dictionary *)

Lemma gpu_key_inj (g g' : Z) : "gpu" +:+ pretty g = "gpu" +:+ pretty g' → g = g'.
Proof. intros H. simpl in H. injection H as H. by apply (inj pretty). Qed.

Lemma gpu_key_not_main (g : Z) : "main" ≠ "gpu" +:+ pretty g.
Proof. simpl. discriminate. Qed.

Lemma fold_devices_other (others : list Z) (acc : gmap string Z) (k : string) :
  (∀ g, g ∈ others → k ≠ "gpu" +:+ pretty g) →
  fold_left add_gpu others acc !! k = acc !! k.
Proof.
  revert acc. induction others as [|x others IH]; intros acc Hk; [done|].
  simpl. rewrite IH by (intros g Hg; apply Hk; by right).
  unfold add_gpu. rewrite lookup_insert_ne; [done|].
  intros Heq. apply (Hk x); [by left|done].
Qed.

Lemma fold_devices_gpu (others : list Z) (acc : gmap string Z) (g : Z) :
  g ∈ others →
  fold_left add_gpu others acc !! ("gpu" +:+ pretty g) = Some g.
Proof.
  revert acc. induction others as [|x others IH]; intros acc Hg.
  - by apply elem_of_nil in Hg.
  - simpl. destruct (decide (g ∈ others)) as [Hin|Hout]; [by apply IH|].
    apply elem_of_cons in Hg as [->|Hin]; [|done].
    rewrite fold_devices_other.
    + unfold add_gpu. apply lookup_insert_eq.
    + intros g' Hg' Heq. apply gpu_key_inj in Heq as ->. done.
Qed.

Lemma fold_devices_inv (others : list Z) (acc : gmap string Z) (k : string) (v : Z) :
  fold_left add_gpu others acc !! k = Some v →
  (∃ g, g ∈ others ∧ k = "gpu" +:+ pretty g ∧ v = g) ∨ acc !! k = Some v.
Proof.
  revert acc. induction others as [|x others IH]; intros acc H; [by right|].
  simpl in H. apply IH in H as [(g & Hg & -> & ->)|H].
  - left. exists g. split; [by right|done].
  - unfold add_gpu in H. destruct (decide ("gpu" +:+ pretty x = k)) as [<-|Hne].
    + rewrite lookup_insert_eq in H. injection H as <-.
      left. exists x. split; [by left|done].
    + rewrite lookup_insert_ne in H by done. by right.
Qed.

(** ** The trainer loop, entry by entry *)

Import trainer.

Lemma firings_app (sel : Extension → bool) (a b : list Event) :
  firings sel (a ++ b) = firings sel a ++ firings sel b.
Proof. apply omap_app. Qed.

Lemma updates_app (a b : list Event) : updates (a ++ b) = updates a ++ updates b.
Proof. apply omap_app. Qed.

(** [(t + 1) // p] differs from [t // p] exactly at the multiples of [p]. *)
Lemma interval_step (p t : Z) :
  0 < p → negb (t / p =? (t + 1) / p) = ((t + 1) mod p =? 0).
Proof.
  intros Hp.
  pose proof (Z.div_mod t p ltac:(lia)).
  pose proof (Z.div_mod (t + 1) p ltac:(lia)).
  pose proof (Z.mod_pos_bound t p Hp).
  pose proof (Z.mod_pos_bound (t + 1) p Hp).
  destruct (Z.eqb_spec (t / p) ((t + 1) / p)) as [E|E],
           (Z.eqb_spec ((t + 1) mod p) 0) as [E'|E']; simpl; try done; exfalso.
  - rewrite E' in *. rewrite <- E in *. lia.
  - apply E. nia.
Qed.


Section Loop.
Variable mean : string → Z → Q.

Lemma fire_all_updates (obs : list string)
  (ents ents' : list (Extension * Trigger * TriggerState)) (t : Z) (evs : list Event) :
  fire_all mean obs ents t = Ok (evs, ents') → updates evs = [].
Proof.
  revert obs ents' evs. induction ents as [|[e s] rest IH]; intros obs ents' evs H.
  - by injection H as <- <-.
  - simpl in H.
    destruct (fires mean obs e s t) as [[b s']|x]; [|done].
    destruct (fire_all mean _ rest t) as [[evs0 rest']|x] eqn:Hr; [|done].
    injection H as <- <-. rewrite updates_app, (IH _ _ _ Hr). by destruct b.
Qed.

(** Where no entry is selected, nothing selected acts. *)
Lemma fire_all_none (sel : Extension → bool) (obs : list string)
  (ents ents' : list (Extension * Trigger * TriggerState)) (t : Z) (evs : list Event) :
  fire_all mean obs ents t = Ok (evs, ents') →
  List.filter (keep sel) ents = [] →
  firings sel evs = [] ∧ List.filter (keep sel) ents' = [].
Proof.
  revert obs ents' evs. induction ents as [|[e s] rest IH]; intros obs ents' evs H Hk.
  - by injection H as <- <-.
  - simpl in H.
    destruct (fires mean obs e s t) as [[b s']|x]; [|done].
    destruct (fire_all mean _ rest t) as [[evs0 rest']|x] eqn:Hr; [|done].
    injection H as <- <-.
    cbn [List.filter] in Hk |- *.
    change (keep sel (e, s)) with (sel (fst e)) in Hk.
    change (keep sel (e, s')) with (sel (fst e)).
    destruct (sel (fst e)) eqn:Hsel; [done|].
    destruct (IH _ _ _ Hr Hk) as [Hfir Hk'].
    split; [|done]. rewrite firings_app, Hfir. destruct b; [|done].
    unfold firings. simpl. by rewrite Hsel.
Qed.

(** Where one entry is selected, it is called once, on some observation,
    and what is recorded for the selection is what it did. *)
Lemma fire_all_select (sel : Extension → bool) (obs : list string)
  (ents ents' : list (Extension * Trigger * TriggerState)) (t : Z) (evs : list Event)
  (e : Extension * Trigger) (s : TriggerState) :
  fire_all mean obs ents t = Ok (evs, ents') →
  List.filter (keep sel) ents = [(e, s)] →
  ∃ obs' b s',
    fires mean obs' e s t = Ok (b, s') ∧
    List.filter (keep sel) ents' = [(e, s')] ∧
    firings sel evs = if b then [t] else [].
Proof.
  revert obs ents' evs. induction ents as [|[e0 s0] rest IH]; intros obs ents' evs H Hk.
  - done.
  - simpl in H.
    destruct (fires mean obs e0 s0 t) as [[b s']|x] eqn:Hf; [|done].
    destruct (fire_all mean _ rest t) as [[evs0 rest']|x] eqn:Hr; [|done].
    injection H as <- <-.
    cbn [List.filter] in Hk |- *.
    change (keep sel (e0, s0)) with (sel (fst e0)) in Hk.
    change (keep sel (e0, s')) with (sel (fst e0)).
    destruct (sel (fst e0)) eqn:Hsel.
    + injection Hk as -> -> Hk.
      destruct (fire_all_none sel _ _ _ _ _ Hr Hk) as [Hfir Hk'].
      exists obs, b, s'. split; [done|]. split; [by rewrite Hk'|].
      rewrite firings_app, Hfir, app_nil_r. destruct b; [|done].
      unfold firings. simpl. by rewrite Hsel.
    + destruct (IH _ _ _ Hr Hk) as (obs' & b' & s'' & Hf' & Hk' & Hfir).
      exists obs', b', s''. split; [done|]. split; [done|].
      rewrite firings_app, Hfir. destruct b; [|done].
      unfold firings at 1. simpl. by rewrite Hsel.
Qed.

(** One iteration of the loop, read backwards. *)
Lemma loop_step (fuel : nat) (stop : Z) (ss : TriggerState)
  (ents : list (Extension * Trigger * TriggerState)) (t : Z) (trace : list Event) :
  loop mean (S fuel) stop ss ents t = Finished trace →
  trace = [] ∨
  ∃ ss' evs ents' trace0,
    fire_all mean reported_by_update ents (t + 1) = Ok (evs, ents') ∧
    loop mean fuel stop ss' ents' (t + 1) = Finished trace0 ∧
    trace = update (t + 1) :: evs ++ trace0.
Proof.
  cbn [loop]. intros H.
  destruct (interval stop ss t) as [[[] ss']|x]; [..|done].
  { left. by injection H as <-. }
  destruct (fire_all mean _ ents (t + 1)) as [[evs ents']|x] eqn:Hf; [|done].
  destruct (loop mean fuel stop ss' ents' (t + 1)) as [trace0| |] eqn:Hl; [|done..].
  injection H as <-. right. by exists ss', evs, ents', trace0.
Qed.

(** What a trace records of one iteration. *)
Lemma firings_step (sel : Extension → bool) (t : Z) (evs trace : list Event) :
  firings sel (update t :: evs ++ trace) = firings sel evs ++ firings sel trace.
Proof.
  change (update t :: evs ++ trace) with ([update t] ++ evs ++ trace).
  by rewrite !firings_app.
Qed.

Lemma updates_step (obs : list string) (t t' : Z)
  (ents ents' : list (Extension * Trigger * TriggerState)) (evs trace : list Event) :
  fire_all mean obs ents t' = Ok (evs, ents') →
  updates (update t :: evs ++ trace) = t :: updates trace.
Proof.
  intros Hf. change (update t :: evs ++ trace) with ([update t] ++ evs ++ trace).
  by rewrite !updates_app, (fire_all_updates _ _ _ _ _ Hf).
Qed.

(** An entry that acts by an interval trigger of period [p]: whatever
    else is registered, it acts at the multiples of [p]. *)
Lemma loop_interval (sel : Extension → bool) (e : Extension * Trigger) (p : Z) :
  0 < p →
  (∀ obs s t, fires mean obs e s t = interval p s t) →
  ∀ (fuel : nat) (stop : Z) (ss : TriggerState)
    (ents : list (Extension * Trigger * TriggerState)) (s : TriggerState) (t : Z)
    (trace : list Event),
    previous_iteration s = t →
    List.filter (keep sel) ents = [(e, s)] →
    loop mean fuel stop ss ents t = Finished trace →
    firings sel trace = List.filter (λ t', t' mod p =? 0) (updates trace).
Proof.
  intros Hp Hfires. induction fuel as [|fuel IH];
    intros stop ss ents s t trace Hs Hk H; [done|].
  apply loop_step in H as [->|(ss' & evs & ents' & trace0 & Hf & Hl & ->)]; [done|].
  destruct (fire_all_select sel _ _ _ _ _ _ _ Hf Hk) as (obs' & b & s' & Hb & Hk' & Hfir).
  rewrite Hfires in Hb. unfold interval in Hb.
  destruct (Z.eqb_spec p 0) as [?|_]; [lia|].
  rewrite Hs, interval_step in Hb by done. injection Hb as <- <-.
  rewrite firings_step, (updates_step _ _ _ _ _ _ _ Hf), Hfir.
  rewrite (IH _ _ _ _ _ _ eq_refl Hk' Hl). cbn [List.filter].
  by destruct ((t + 1) mod p =? 0).
Qed.

(** The progress bar, whatever else is registered. *)
Lemma loop_progress_bar (sel : Extension → bool) (n : Z) :
  n ≠ 0 →
  ∀ (fuel : nat) (stop : Z) (ss : TriggerState)
    (ents : list (Extension * Trigger * TriggerState)) (s : TriggerState) (t : Z)
    (trace : list Event),
    List.filter (keep sel) ents = [((ProgressBar n, NoTrigger), s)] →
    loop mean fuel stop ss ents t = Finished trace →
    firings sel trace = List.filter (λ t', t' mod n =? 0) (updates trace).
Proof.
  intros Hn. induction fuel as [|fuel IH];
    intros stop ss ents s t trace Hk H; [done|].
  apply loop_step in H as [->|(ss' & evs & ents' & trace0 & Hf & Hl & ->)]; [done|].
  destruct (fire_all_select sel _ _ _ _ _ _ _ Hf Hk) as (obs' & b & s' & Hb & Hk' & Hfir).
  cbn [fires fst snd] in Hb.
  destruct (Z.eqb_spec n 0) as [?|_]; [done|]. injection Hb as <- <-.
  rewrite firings_step, (updates_step _ _ _ _ _ _ _ Hf), Hfir.
  rewrite (IH _ _ _ _ _ _ Hk' Hl). cbn [List.filter].
  by destruct ((t + 1) mod n =? 0).
Qed.

(** One call of the minimum-value trigger that returns: it keeps the
    invariant, and it fires only at a check whose value is strictly below
    the value of every earlier check. *)
Lemma min_value_step (obs : list string) (key : string) (p : Z)
  (s s' : TriggerState) (t : Z) (b : bool) :
  0 < p →
  previous_iteration s = t →
  best_below mean key p t s →
  min_value mean obs key p s (t + 1) = Ok (b, s') →
  previous_iteration s' = t + 1 ∧
  best_below mean key p (t + 1) s' ∧
  (b = true →
   (t + 1) mod p = 0 ∧
   ∀ t'', 0 < t'' < t + 1 → t'' mod p = 0 → (mean key (t + 1) < mean key t'')%Q).
Proof.
  intros Hp Hs Hbest. unfold min_value, interval.
  destruct (Z.eqb_spec p 0) as [?|_]; [lia|].
  assert (Hprev : previous_iteration
                    (if bool_decide (key ∈ obs) then observe s else s) = t)
    by (by destruct (bool_decide _)).
  assert (Hbv : best_value (if bool_decide (key ∈ obs) then observe s else s)
                = best_value s)
    by (by destruct (bool_decide _)).
  rewrite Hprev, interval_step by done. cbn [best_value observed].
  rewrite Hbv. unfold best_below in Hbest.
  destruct (Z.eqb_spec ((t + 1) mod p) 0) as [Hmod|Hmod].
  - destruct (observed _); [|done].
    destruct (best_value s) as [best|] eqn:Hb.
    + destruct (Qle_bool best (mean key (t + 1))) eqn:Hle; cbn [negb].
      * (* no improvement: nothing is written *)
        apply Qle_bool_iff in Hle. intros [= <- <-].
        split; [done|]. split; [|done].
        unfold best_below. cbn [best_value]. intros t' Ht' Hc.
        destruct (decide (t' = t + 1)) as [->|]; [done|]. apply Hbest; [lia|done].
      * (* a strict improvement *)
        assert (Hlt : (mean key (t + 1) < best)%Q).
        { apply Qnot_le_lt. intros Hc. apply Qle_bool_iff in Hc. congruence. }
        intros [= <- <-]. split; [done|]. split.
        { unfold best_below. cbn [best_value]. intros t' Ht' Hc.
          destruct (decide (t' = t + 1)) as [->|]; [apply Qle_refl|].
          apply Qlt_le_weak. eapply Qlt_le_trans; [exact Hlt|].
          apply Hbest; [lia|done]. }
        intros _. split; [done|]. intros t'' Ht'' Hc.
        eapply Qlt_le_trans; [exact Hlt|]. apply Hbest; [lia|done].
    + (* the first check *)
      intros [= <- <-]. split; [done|]. split.
      { unfold best_below. cbn [best_value]. intros t' Ht' Hc.
        destruct (decide (t' = t + 1)) as [->|]; [apply Qle_refl|].
        exfalso. apply (Hbest t'); [lia|done]. }
      intros _. split; [done|]. intros t'' Ht'' Hc.
      exfalso. apply (Hbest t''); [lia|done].
  - (* between checks *)
    intros [= <- <-]. split; [done|]. split; [|done].
    unfold best_below. cbn [best_value]. rewrite ?Hbv.
    destruct (best_value s) as [best|].
    + intros t' Ht' Hc. destruct (decide (t' = t + 1)) as [->|]; [done|].
      apply Hbest; [lia|done].
    + intros t' Ht'. destruct (decide (t' = t + 1)) as [->|]; [done|].
      apply Hbest. lia.
Qed.

(** The minimum-value trigger in a run that returns, whatever else is
    registered: it writes only at a check whose value is strictly below
    the value of every earlier check. *)
Lemma loop_min_value (sel : Extension → bool) (e : Extension) (key u : string) (p : Z) :
  0 < p →
  ∀ (fuel : nat) (stop : Z) (ss : TriggerState)
    (ents : list (Extension * Trigger * TriggerState)) (s : TriggerState) (t : Z)
    (trace : list Event),
    previous_iteration s = t →
    best_below mean key p t s →
    List.filter (keep sel) ents = [((e, MinValueTrigger key (p, u)), s)] →
    loop mean fuel stop ss ents t = Finished trace →
    ∀ t', t' ∈ firings sel trace →
      t < t' ∧ t' mod p = 0 ∧
      ∀ t'', 0 < t'' < t' → t'' mod p = 0 → (mean key t' < mean key t'')%Q.
Proof.
  intros Hp. induction fuel as [|fuel IH];
    intros stop ss ents s t trace Hs Hbest Hk H; [done|].
  apply loop_step in H as [->|(ss' & evs & ents' & trace0 & Hf & Hl & ->)].
  { intros t' Ht'. by apply elem_of_nil in Ht'. }
  destruct (fire_all_select sel _ _ _ _ _ _ _ Hf Hk) as (obs' & b & s' & Hb & Hk' & Hfir).
  cbn [fires fst snd] in Hb.
  destruct (min_value_step _ _ _ _ _ _ _ Hp Hs Hbest Hb) as (Hs' & Hbest' & Hfire).
  intros t' Ht'. rewrite firings_step, Hfir in Ht'.
  apply elem_of_app in Ht' as [Ht'|Ht'].
  - destruct b; [|by apply elem_of_nil in Ht'].
    apply list_elem_of_singleton in Ht' as ->.
    destruct (Hfire eq_refl) as [Hmod Hlow]. split; [lia|done].
  - destruct (IH _ _ _ _ _ _ Hs' Hbest' Hk' Hl t' Ht') as (? & ? & ?).
    split; [lia|done].
Qed.

(** Where no entry is selected, the trace has nothing of the selection. *)
Lemma loop_nil (sel : Extension → bool) (fuel : nat) (stop : Z) (ss : TriggerState)
  (ents : list (Extension * Trigger * TriggerState)) (t : Z) (trace : list Event) :
  List.filter (keep sel) ents = [] →
  loop mean fuel stop ss ents t = Finished trace → firings sel trace = [].
Proof.
  revert ss ents t trace. induction fuel as [|fuel IH]; intros ss ents t trace Hk H; [done|].
  apply loop_step in H as [->|(ss' & evs & ents' & trace0 & Hf & Hl & ->)]; [done|].
  destruct (fire_all_none sel _ _ _ _ _ Hf Hk) as [Hfir Hk'].
  by rewrite firings_step, Hfir, (IH _ _ _ _ Hk' Hl).
Qed.






End Loop.

(** ** The registry in the loop *)

Lemma keep_registry (sel : Extension → bool) (l : list (Extension * Trigger)) :
  List.filter (keep sel) (map (λ e, (e, fresh)) l) =
  map (λ e, (e, fresh)) (List.filter (λ entry, sel (fst entry)) l).
Proof.
  induction l as [|e l IH]; [done|]. cbn [map List.filter].
  change (keep sel (e, fresh)) with (sel (fst e)).
  destruct (sel (fst e)); cbn [map]; by rewrite IH.
Qed.

Lemma valid_given (s : string) : (len_str s >? 0) = negb (bool_decide (s = "")).
Proof.
  destruct s as [|c s]; [done|].
  rewrite bool_decide_eq_false_2 by done. apply Z.gtb_lt.
  unfold len_str. simpl String.length. lia.
Qed.


Lemma filter_every (l : list Z) : List.filter (λ t, t mod 1 =? 0) l = l.
Proof.
  induction l as [|x l IH]; [done|]. simpl. by rewrite Z.mod_1_r, IH.
Qed.

Lemma keep_selected (sel : Extension → bool) (l : list (Extension * Trigger))
  (e : Extension * Trigger) :
  List.filter (λ entry, sel (fst entry)) l = [e] →
  List.filter (keep sel) (map (λ e, (e, fresh)) l) = [(e, fresh)].
Proof. intros H. by rewrite keep_registry, H. Qed.

Lemma keep_unselected (sel : Extension → bool) (l : list (Extension * Trigger)) :
  List.filter (λ entry, sel (fst entry)) l = [] →
  List.filter (keep sel) (map (λ e, (e, fresh)) l) = [].
Proof. intros H. by rewrite keep_registry, H. Qed.



(** ** The command line *)

Import argparse.

Lemma classify_TOpt (tok : string) (a : Action) :
  classify tok = TOpt a → find_action tok = Some a.
Proof.
  unfold classify. destruct (find_action tok) as [a'|]; [by intros [= ->]|].
  destruct tok as [|c tok]; [done|].
  destruct (Ascii.eqb_spec c "-") as [->|Hc].
  - destruct tok; [done|]. by destruct (negative_number_like _).
  - destruct c as [[] [] [] [] [] [] [] []]; done.
Qed.

(** Only [--names] stores to [names], and only [--train] to [train]. *)
Lemma find_action_names (tok : string) (a : Action) :
  find_action tok = Some a → dest a = "names" → tok = "--names".
Proof.
  unfold find_action, actions. cbn [List.find option_strings].
  repeat (case_bool_decide; [intros [= <-]; cbn [dest]; intros Hd; try discriminate Hd|]);
    [|done].
  by apply list_elem_of_singleton.
Qed.

Lemma find_action_train (tok : string) (a : Action) :
  find_action tok = Some a → dest a = "train" → tok = "--train".
Proof.
  unfold find_action, actions. cbn [List.find option_strings].
  repeat (case_bool_decide; [intros [= <-]; cbn [dest]; intros Hd; try discriminate Hd|]);
    [|done].
  by apply list_elem_of_singleton.
Qed.

Section Absent.
Variable env : Env.
Variables d o : string.
Hypothesis only : ∀ tok a, find_action tok = Some a → dest a = d → tok = o.

Lemma close_absent (cur : option (Action * list string)) (ns ns' : gmap string Value) :
  (∀ a raw, cur = Some (a, raw) → dest a ≠ d) →
  ns !! d = None →
  close env cur ns = Some ns' →
  ns' !! d = None.
Proof.
  intros Hcur Hns. unfold close. destruct cur as [[a raw]|]; [|by intros [= <-]].
  destruct (get_values env a raw) as [v|]; [|done]. simpl. intros [= <-].
  rewrite lookup_insert_ne; [done|]. by eapply Hcur.
Qed.

(** An attribute whose option does not occur stays unset. *)
Lemma scan_absent (toks : list string) (cur : option (Action * list string))
  (ns ns' : gmap string Value) :
  o ∉ toks →
  (∀ a raw, cur = Some (a, raw) → dest a ≠ d) →
  ns !! d = None →
  scan env cur ns toks = Parsed ns' →
  ns' !! d = None.
Proof.
  revert cur ns. induction toks as [|tok rest IH]; intros cur ns Ho Hcur Hns H.
  - cbn [scan] in H.
    destruct (close env cur ns) as [ns''|] eqn:Hc; [|done].
    injection H as <-. by eapply close_absent.
  - cbn [scan] in H. apply not_elem_of_cons in Ho as [Htok Hrest].
    destruct (classify tok) as [a|s|] eqn:Hclass; [| |done].
    + destruct (close env cur ns) as [ns''|] eqn:Hc; [|done].
      apply (IH _ _ Hrest) in H; [done| |by eapply close_absent].
      intros a' raw [= <- <-] Hd. apply Htok. symmetry.
      eapply only; [by apply classify_TOpt|done].
    + destruct cur as [[a raw]|]; [|done].
      apply (IH _ _ Hrest) in H; [done| |done].
      intros a' raw' [= <- <-]. by eapply Hcur.
Qed.

Lemma parse_args_absent (argv : list string) (args : Args) :
  o ∉ argv →
  parse_args env argv = Parsed args →
  ∃ ns, args = namespace ns ∧ ns !! d = None.
Proof.
  intros Ho. unfold parse_args. destruct (forallb _ argv); [|done].
  destruct (scan env None ∅ argv) as [ns| |] eqn:Hscan; [|done..].
  intros [= <-]. exists ns. split; [done|].
  eapply scan_absent; [done| |apply lookup_empty|done]. done.
Qed.

End Absent.

(** * The claims *)

(** C1. Every entry [v < 0] of [--steps] is replaced by
    [args.iteration + v] and every entry [v >= 0] is kept, each entry once
    (a boundary that is still negative after the shift is not shifted
    again); the learning-rate schedule extension is constructed once, with
    the list already resolved. *)
Theorem steps_resolved (env : Env) (argv : list string) (args : Args) (r : Run) :
  argparse.parse_args env argv = argparse.Parsed args →
  main env argv = Running r →
  ∃ lr_steps,
    registered is_DarknetShift r =
      [(DarknetShift "steps" (iteration args) 1000 lr_steps (scales args), NoTrigger)] ∧
    args_steps (final r) = lr_steps ∧
    length lr_steps = length (steps args) ∧
    ∀ (i : nat) (v : Z), steps args !! i = Some v →
      (v < 0 → lr_steps !! i = Some (iteration args + v)) ∧
      (0 ≤ v → lr_steps !! i = Some v).
Proof.
  intros Hparse Hmain.
  destruct (main_Running _ _ _ _ Hparse Hmain) as (cn & images & _ & ->).
  exists (resolved (iteration args) (steps args)).
  split; [registry_cases args env|]. split; [done|].
  unfold resolved. split; [apply length_map|].
  intros i v Hv. rewrite list_lookup_fmap, Hv. simpl.
  split; intros Hsign.
  - by destruct (Z.ltb_spec v 0); [|lia].
  - by destruct (Z.ltb_spec v 0); [lia|].
Qed.

Lemma steps_resolved_witness :
  ∃ args r,
    argparse.parse_args example_env steps_argv = argparse.Parsed args ∧
    main example_env steps_argv = Running r ∧
    steps args = [-150; -20; 90] ∧
    ∃ lr_steps,
      registered is_DarknetShift r =
        [(DarknetShift "steps" 100 1000 lr_steps [0.1%Q; 0.1%Q], NoTrigger)] ∧
      lr_steps !! 0%nat = Some (-50) ∧
      lr_steps !! 1%nat = Some 80 ∧
      lr_steps !! 2%nat = Some 90.
Proof.
  eexists _, _.
  split; [vm_compute; reflexivity|]. split; [vm_compute; reflexivity|].
  split; [reflexivity|].
  destruct (steps_resolved example_env steps_argv _ _
              ltac:(vm_compute; reflexivity) ltac:(vm_compute; reflexivity))
    as (lr_steps & Hreg & _ & _ & Hres).
  exists lr_steps. split; [exact Hreg|].
  split; [|split].
  - apply (proj1 (Hres 0%nat (-150) eq_refl)). lia.
  - apply (proj1 (Hres 1%nat (-20) eq_refl)). lia.
  - apply (proj2 (Hres 2%nat 90 eq_refl)). lia.
Defined.

(** C2. The snapshot [yolov3_snapshot.npz] is registered once, under a
    minimum-value trigger that is checked every [snapshot_interval]
    iterations and tracks ['validation/main/loss'] when a validation set is
    given and ['main/loss'] otherwise.  In a run it is written only at such
    a check, and only when the tracked metric is strictly below its value
    at every earlier check. *)
Theorem best_snapshot_policy (env : Env) (argv : list string) (args : Args)
  (r : Run) (mean : string → Z → Q) (fuel : nat) (trace : list Event) :
  argparse.parse_args env argv = argparse.Parsed args →
  main env argv = Running r →
  0 < snapshot_interval args →
  trainer.run mean fuel r = Finished trace →
  ∃ key,
    (valid args = "" → key = "main/loss") ∧
    (valid args ≠ "" → key = "validation/main/loss") ∧
    registered (writes "yolov3_snapshot.npz") r =
      [(snapshot_object "yolov3_snapshot.npz",
        MinValueTrigger key (snapshot_interval args, "iteration"))] ∧
    ∀ t, t ∈ firings (writes "yolov3_snapshot.npz") trace →
      0 < t ∧ t mod snapshot_interval args = 0 ∧
      ∀ t', 0 < t' < t → t' mod snapshot_interval args = 0 →
        (mean key t < mean key t')%Q.
Proof.
  intros Hparse Hmain Hp Hrun.
  destruct (main_Running _ _ _ _ Hparse Hmain) as (cn & images & _ & ->).
  exists (snapshot_key_of args).
  split; [|split].
  { intros Hv. unfold snapshot_key_of. by rewrite valid_given, bool_decide_eq_true_2. }
  { intros Hv. unfold snapshot_key_of. by rewrite valid_given, bool_decide_eq_false_2. }
  assert (Hreg : List.filter (λ entry, writes "yolov3_snapshot.npz" (fst entry))
                   (registry args (plot_available env) images) =
                 [(snapshot_object "yolov3_snapshot.npz",
                   MinValueTrigger (snapshot_key_of args)
                     (snapshot_interval args, "iteration"))]).
  { registry_split args env; reflexivity. }
  split; [exact Hreg|].
  unfold trainer.run in Hrun. cbn [stop_trigger extensions fst] in Hrun.
  assert (Hbb : best_below mean (snapshot_key_of args) (snapshot_interval args) 0 fresh).
  { unfold best_below. cbn [best_value fresh]. intros t' Ht'. lia. }
  exact (loop_min_value mean (writes "yolov3_snapshot.npz")
           (snapshot_object "yolov3_snapshot.npz") (snapshot_key_of args) "iteration"
           (snapshot_interval args) Hp fuel (iteration args) fresh _ fresh 0 trace
           eq_refl Hbb (keep_selected _ _ _ Hreg) Hrun).
Qed.

Lemma best_snapshot_policy_witness :
  ∃ args r trace,
    argparse.parse_args example_env example_argv = argparse.Parsed args ∧
    main example_env example_argv = Running r ∧
    trainer.run example_mean 10 r = Finished trace ∧
    firings (writes "yolov3_snapshot.npz") trace = [2] ∧
    2 mod snapshot_interval args = 0.
Proof.
  eexists _, _, _.
  split; [vm_compute; reflexivity|]. split; [vm_compute; reflexivity|].
  split; [vm_compute; reflexivity|]. split; [vm_compute; reflexivity|].
  destruct (best_snapshot_policy example_env example_argv _ _ example_mean 10 _
              ltac:(vm_compute; reflexivity) ltac:(vm_compute; reflexivity)
              ltac:(reflexivity) ltac:(vm_compute; reflexivity))
    as (key & _ & _ & _ & Hfire).
  apply (Hfire 2). vm_compute. apply list_elem_of_here.
Defined.

(** C3. The crop-size scheduler is constructed once, with the candidate
    sizes [320, 352, 384, 416, 448], which are [(10+i)*32] for [i] in
    [range(0, 5)], and with the cutoff [args.iteration - 200].  Given that, before
    the cutoff the selected size is a function of the iteration alone and
    one of the candidates, and from the cutoff on the size stays what it
    is. *)
Theorem crop_size_schedule (env : Env) (argv : list string) (args : Args) (r : Run) :
  argparse.parse_args env argv = argparse.Parsed args →
  main env argv = Running r →
  ∃ sizes cutoff,
    registered is_CropSizeUpdater r = [(CropSizeUpdater sizes cutoff, NoTrigger)] ∧
    sizes = [320; 352; 384; 416; 448] ∧
    sizes = map (λ i, (10 + i) * 32) (range 0 5) ∧
    cutoff = iteration args - 200 ∧
    ∀ pick : Z → nat, (∀ t, (pick t < length sizes)%nat) →
      ∀ t : Z,
        (t < cutoff →
           ∃ size, size ∈ sizes ∧
             ∀ current, crop_size_update pick sizes cutoff t current = Ok size) ∧
        (cutoff ≤ t →
           ∀ current, crop_size_update pick sizes cutoff t current = Ok current).
Proof.
  intros Hparse Hmain.
  destruct (main_Running _ _ _ _ Hparse Hmain) as (cn & images & _ & ->).
  exists [320; 352; 384; 416; 448], (iteration args - 200).
  split; [registry_cases args env|]. do 3 (split; [done|]).
  intros pick Hpick t. unfold crop_size_update. split; intros Ht.
  - destruct (lookup_lt_is_Some_2 [320; 352; 384; 416; 448] (pick t) (Hpick t))
      as [size Hsize].
    exists size. split; [by eapply list_elem_of_lookup_2|].
    intros current. rewrite Hsize.
    by destruct (Z.ltb_spec t (iteration args - 200)); [|lia].
  - intros current.
    by destruct (Z.ltb_spec t (iteration args - 200)); [lia|].
Qed.

Lemma crop_size_schedule_witness :
  ∃ args r,
    argparse.parse_args example_env steps_argv = argparse.Parsed args ∧
    main example_env steps_argv = Running r ∧
    registered is_CropSizeUpdater r =
      [(CropSizeUpdater [320; 352; 384; 416; 448] (-100), NoTrigger)] ∧
    crop_size_update (λ t, Z.to_nat (t `mod` 5)) [320; 352; 384; 416; 448] (-100)
      (-103) 416 = Ok 384 ∧
    crop_size_update (λ t, Z.to_nat (t `mod` 5)) [320; 352; 384; 416; 448] (-100)
      7 416 = Ok 416.
Proof.
  eexists _, _.
  split; [vm_compute; reflexivity|]. split; [vm_compute; reflexivity|].
  destruct (crop_size_schedule example_env steps_argv _ _
              ltac:(vm_compute; reflexivity) ltac:(vm_compute; reflexivity))
    as (sizes & cutoff & Hreg & -> & _ & Hcut & Hsched).
  vm_compute in Hcut. subst cutoff.
  split; [exact Hreg|].
  assert (Hpick : ∀ t, (Z.to_nat (t `mod` 5) < length [320; 352; 384; 416; 448])%nat).
  { intros t. simpl. pose proof (Z.mod_pos_bound t 5). lia. }
  split.
  - destruct (proj1 (Hsched _ Hpick (-103)) ltac:(lia)) as (size & _ & Hsize).
    rewrite (Hsize 416). f_equal.
    specialize (Hsize 0). vm_compute in Hsize. by injection Hsize.
  - apply (proj2 (Hsched _ Hpick 7) ltac:(lia)).
Defined.

(** C4 as stated fails: the progress bar acts at iteration 1 of a run
    whose display interval is 2. *)
Lemma progress_bar_every_iteration :
  ∃ args r trace,
    argparse.parse_args example_env example_argv = argparse.Parsed args ∧
    main example_env example_argv = Running r ∧
    trainer.run example_mean 10 r = Finished trace ∧
    display_interval args = 2 ∧
    registered is_ProgressBar r = [(ProgressBar 1, NoTrigger)] ∧
    firings is_ProgressBar trace = [1; 2; 3; 4] ∧
    1 mod display_interval args ≠ 0.
Proof.
  eexists _, _, _.
  split; [vm_compute; reflexivity|]. split; [vm_compute; reflexivity|].
  split; [vm_compute; reflexivity|].
  split; [reflexivity|]. split; [reflexivity|]. split; [reflexivity|].
  vm_compute. discriminate.
Qed.

(** C4, amended. [LogReport] is constructed with the display interval as
    its trigger, [PrintReport] is registered under it, and [PlotReport],
    registered only when plotting is available, is constructed with it:
    these three act at the multiples of [display_interval].  [ProgressBar]
    is registered without a trigger and with [update_interval=1]: it acts
    at every iteration, whatever the display interval.  None of the four
    alters the training state. *)
Theorem reporting_extensions (env : Env) (argv : list string) (args : Args)
  (r : Run) (mean : string → Z → Q) (fuel : nat) (trace : list Event) :
  argparse.parse_args env argv = argparse.Parsed args →
  main env argv = Running r →
  0 < display_interval args →
  trainer.run mean fuel r = Finished trace →
  (* how they are registered *)
  registered is_LogReport r =
    [(LogReport (display_interval args, "iteration"), NoTrigger)] ∧
  (∃ entries, registered is_PrintReport r =
     [(PrintReport entries, Interval (display_interval args, "iteration"))]) ∧
  (∃ keys, registered is_PlotReport r =
     if plot_available env
     then [(PlotReport keys "iteration" (display_interval args, "iteration")
              "loss.png", NoTrigger)]
     else []) ∧
  registered is_ProgressBar r = [(ProgressBar 1, NoTrigger)] ∧
  (* when they act *)
  firings is_LogReport trace = multiples_of (display_interval args) (updates trace) ∧
  firings is_PrintReport trace = multiples_of (display_interval args) (updates trace) ∧
  firings is_PlotReport trace =
    (if plot_available env
     then multiples_of (display_interval args) (updates trace) else []) ∧
  firings is_ProgressBar trace = updates trace ∧
  (* what they alter *)
  ∀ e, is_LogReport e || is_PrintReport e || is_PlotReport e || is_ProgressBar e = true →
       alters e = [].
Proof.
  intros Hparse Hmain Hd Hrun.
  set (display := (display_interval args, "iteration")).
  destruct (main_Running _ _ _ _ Hparse Hmain) as (cn & images & _ & ->).
  unfold trainer.run in Hrun. cbn [stop_trigger extensions fst] in Hrun.
  unfold registered. cbn [extensions].
  assert (Hlog : List.filter (λ entry, is_LogReport (fst entry))
                   (registry args (plot_available env) images) =
                 [(LogReport display, NoTrigger)]).
  { registry_split args env; reflexivity. }
  assert (Hprint : ∃ entries,
            List.filter (λ entry, is_PrintReport (fst entry))
              (registry args (plot_available env) images) =
            [(PrintReport entries, Interval display)]).
  { exists (if len_str (valid args) >? 0
            then ["epoch"; "iteration"; "main/loss"; "validation/main/loss";
                  "elapsed_time"]
            else ["epoch"; "iteration"; "main/loss"; "elapsed_time"]).
    registry_split args env; reflexivity. }
  assert (Hplot : ∃ keys,
            List.filter (λ entry, is_PlotReport (fst entry))
              (registry args (plot_available env) images) =
            if plot_available env
            then [(PlotReport keys "iteration" display "loss.png", NoTrigger)]
            else []).
  { exists (if len_str (valid args) >? 0
            then ["main/loss"; "validation/main/loss"] else ["main/loss"]).
    registry_split args env; reflexivity. }
  assert (Hbar : List.filter (λ entry, is_ProgressBar (fst entry))
                   (registry args (plot_available env) images) =
                 [(ProgressBar 1, NoTrigger)]).
  { registry_split args env; reflexivity. }
  split; [exact Hlog|]. split; [exact Hprint|]. split; [exact Hplot|].
  split; [exact Hbar|].
  split; [|split; [|split; [|split]]].
  - exact (loop_interval mean is_LogReport (LogReport display, NoTrigger)
             (display_interval args) Hd (λ _ _ _, eq_refl)
             _ _ _ _ fresh _ _ eq_refl (keep_selected _ _ _ Hlog) Hrun).
  - destruct Hprint as [entries Hprint].
    exact (loop_interval mean is_PrintReport (PrintReport entries, Interval display)
             (display_interval args) Hd (λ _ _ _, eq_refl)
             _ _ _ _ fresh _ _ eq_refl (keep_selected _ _ _ Hprint) Hrun).
  - destruct Hplot as [keys Hplot].
    destruct (plot_available env).
    + exact (loop_interval mean is_PlotReport
               (PlotReport keys "iteration" display "loss.png", NoTrigger)
               (display_interval args) Hd (λ _ _ _, eq_refl)
               _ _ _ _ fresh _ _ eq_refl (keep_selected _ _ _ Hplot) Hrun).
    + exact (loop_nil mean is_PlotReport _ _ _ _ _ _ (keep_unselected _ _ Hplot) Hrun).
  - rewrite (loop_progress_bar mean is_ProgressBar 1 ltac:(done)
               _ _ _ _ fresh _ _ (keep_selected _ _ _ Hbar) Hrun).
    apply filter_every.
  - intros e He. by destruct e.
Qed.

Lemma reporting_extensions_witness :
  ∃ args r trace,
    argparse.parse_args example_env example_argv = argparse.Parsed args ∧
    main example_env example_argv = Running r ∧
    trainer.run example_mean 10 r = Finished trace ∧
    firings is_LogReport trace = [2; 4] ∧
    firings is_ProgressBar trace = [1; 2; 3; 4].
Proof.
  eexists _, _, _.
  split; [vm_compute; reflexivity|]. split; [vm_compute; reflexivity|].
  split; [vm_compute; reflexivity|].
  destruct (reporting_extensions example_env example_argv _ _ example_mean 10 _
              ltac:(vm_compute; reflexivity) ltac:(vm_compute; reflexivity)
              ltac:(reflexivity) ltac:(vm_compute; reflexivity))
    as (_ & _ & _ & _ & Hlog & _ & _ & Hbar & _).
  split; [exact Hlog|exact Hbar].
Defined.

(** C5 as stated fails: the empty command line, on which both [--names]
    and [--train] are missing, is accepted; [main] goes on with
    [args.names = None] and is stopped by the exception of [load_list],
    not by a usage error. *)
Lemma missing_paths_accepted :
  ("--names" ∉ @nil string) ∧ ("--train" ∉ @nil string) ∧
  ∃ args,
    parse_args example_env [] = Parsed args ∧
    names args = None ∧ train args = None ∧
    main example_env [] = Uncaught "load_list" ∧
    main example_env [] ≠ UsageExit.
Proof.
  split; [apply not_elem_of_nil|]. split; [apply not_elem_of_nil|].
  eexists. split; [vm_compute; reflexivity|].
  split; [reflexivity|]. split; [reflexivity|].
  split; [vm_compute; reflexivity|]. vm_compute. discriminate.
Qed.

(** C5, amended. No path flag is declared required.  On a command line
    that argument resolution accepts, a missing [--names] or [--train]
    leaves the attribute [None]; [main] does not exit with a usage error,
    it hands [args.names] to [load_list], and if that call raises, the
    exception leaves [main]. *)
Theorem missing_path_is_no_usage_error (env : Env) (argv : list string) (args : Args) :
  parse_args env argv = Parsed args →
  ("--names" ∉ argv → names args = None) ∧
  ("--train" ∉ argv → train args = None) ∧
  main env argv ≠ UsageExit ∧
  (load_list env (names args) = None → main env argv = Uncaught "load_list") ∧
  (∀ r, main env argv = Running r → load_list env (names args) = Some (class_names r)).
Proof.
  intros Hparse. split; [|split; [|split; [|split]]].
  - intros Ho.
    destruct (parse_args_absent env "names" "--names" find_action_names _ _ Ho Hparse)
      as (ns & -> & Hns).
    cbn [namespace names]. unfold get_str. by rewrite Hns.
  - intros Ho.
    destruct (parse_args_absent env "train" "--train" find_action_train _ _ Ho Hparse)
      as (ns & -> & Hns).
    cbn [namespace train]. unfold get_str. by rewrite Hns.
  - unfold main. rewrite Hparse. by destruct (main_body env args (initial args)) as [[]|].
  - intros Hnone. unfold main. rewrite Hparse.
    unfold main_body. unfold mbind at 1, M_bind at 1. by rewrite Hnone.
  - intros r Hmain.
    by destruct (main_Running _ _ _ _ Hparse Hmain) as (cn & images & Hcn & ->).
Qed.

Lemma missing_path_is_no_usage_error_witness :
  ∃ args,
    parse_args example_env ["--train"; "train.txt"] = Parsed args ∧
    names args = None ∧
    main example_env ["--train"; "train.txt"] ≠ UsageExit.
Proof.
  eexists. split; [vm_compute; reflexivity|].
  destruct (missing_path_is_no_usage_error example_env ["--train"; "train.txt"] _
              ltac:(vm_compute; reflexivity)) as (Hnames & _ & Hexit & _).
  split; [|exact Hexit].
  apply Hnames. intros Hin. by repeat (apply elem_of_cons in Hin as [Hin|Hin]; [done|]);
    apply elem_of_nil in Hin.
Defined.




(** C7. The updater and the placement of the model depend on the length
    of [--gpus] alone.  No GPU: a [StandardUpdater] on device -1, the
    model stays in host memory.  One GPU: a [StandardUpdater] on that GPU
    and the model is moved to it.  Several: a [ParallelUpdater] whose
    device dictionary maps ['main'] to [gpus[0]] and ['gpu{g}'] to [g] for
    each remaining [g], and holds nothing else. *)
Theorem updater_by_gpu_count (env : Env) (argv : list string) (args : Args) (r : Run) :
  argparse.parse_args env argv = argparse.Parsed args →
  main env argv = Running r →
  match gpus args with
  | [] =>
      updater r = StandardUpdater (-1) ∧ device r = -1 ∧
      model_device (final r) = None
  | [g] =>
      updater r = StandardUpdater g ∧ device r = g ∧
      model_device (final r) = Some g
  | g :: others =>
      ∃ devices : gmap string Z,
        updater r = ParallelUpdater devices ∧
        model_device (final r) = None ∧
        devices !! "main" = Some g ∧
        (∀ g', g' ∈ others → devices !! ("gpu" +:+ pretty g') = Some g') ∧
        (∀ k v, devices !! k = Some v →
           (k = "main" ∧ v = g) ∨
           (∃ g', g' ∈ others ∧ k = "gpu" +:+ pretty g' ∧ v = g'))
  end.
Proof.
  intros Hparse Hmain.
  destruct (main_Running _ _ _ _ Hparse Hmain) as (cn & images & _ & ->).
  cbn [updater device final model_device final_state].
  destruct (gpus args) as [|g [|g' gs]]; [done|done|].
  exists (parallel_devices g (g' :: gs)).
  split; [done|]. split; [done|]. unfold parallel_devices. split; [|split].
  - rewrite fold_devices_other; [apply lookup_singleton_eq|].
    intros x _. apply gpu_key_not_main.
  - intros x Hx. by apply fold_devices_gpu.
  - intros k v H. apply fold_devices_inv in H as [H|H]; [by right|].
    left. by apply lookup_singleton_Some in H as [<- <-].
Qed.

Lemma updater_by_gpu_count_witness :
  ∃ args r,
    argparse.parse_args example_env gpu_argv = argparse.Parsed args ∧
    main example_env gpu_argv = Running r ∧
    gpus args = [0; 1] ∧
    ∃ devices : gmap string Z,
      updater r = ParallelUpdater devices ∧
      devices !! "main" = Some 0 ∧ devices !! "gpu1" = Some 1.
Proof.
  eexists _, _.
  split; [vm_compute; reflexivity|]. split; [vm_compute; reflexivity|].
  split; [reflexivity|].
  destruct (updater_by_gpu_count example_env gpu_argv _ _
              ltac:(vm_compute; reflexivity) ltac:(vm_compute; reflexivity))
    as (devices & Hu & _ & Hm & Hg & _).
  exists devices. split; [exact Hu|]. split; [exact Hm|].
  apply (Hg 1). by left.
Defined.

(** C8. The shared-memory buffer of the training iterator has the size the
    formula [(image_area*channels + (1+box_fields)*max_boxes) *
    bytes_per_element] gives for a 448x448 image with 3 channels, 4 box
    coordinates plus the class, at most 100 boxes and 4 bytes per element:
    2410448 bytes, whatever the command line. *)
Theorem shared_mem_size (env : Env) (argv : list string) (r : Run) :
  main env argv = Running r →
  shared_mem (train_iter r) = spec_buffer_size 448 3 4 100 4 ∧
  shared_mem (train_iter r) = 2410448.
Proof.
  intros Hmain.
  destruct (main_Running_parsed _ _ _ Hmain) as [args Hparse].
  destruct (main_Running _ _ _ _ Hparse Hmain) as (cn & images & _ & ->).
  cbn [train_iter shared_mem]. split; reflexivity.
Qed.

Lemma shared_mem_size_witness :
  ∃ r, main example_env example_argv = Running r ∧
       shared_mem (train_iter r) = 2410448.
Proof.
  eexists. split; [vm_compute; reflexivity|].
  apply (shared_mem_size example_env example_argv). vm_compute. reflexivity.
Defined.

(** C9. With a pretrained backbone given ([--darknet] non-empty), the
    backbone is built with [args.darknet_class] classes exactly when that
    value is strictly positive; for every other value, 0 and every negative
    one and not only -1, it is built with as many classes as the names
    file has entries.  Without [--darknet] no backbone is built. *)
Theorem darknet_class_fallback (env : Env) (argv : list string) (args : Args) (r : Run) :
  argparse.parse_args env argv = argparse.Parsed args →
  main env argv = Running r →
  load_list env (names args) = Some (class_names r) ∧
  (darknet args ≠ "" →
     (0 < darknet_class args → darknet53 r = Some (darknet_class args)) ∧
     (darknet_class args ≤ 0 → darknet53 r = Some (len (class_names r)))) ∧
  (darknet args = "" → darknet53 r = None).
Proof.
  intros Hparse Hmain.
  destruct (main_Running _ _ _ _ Hparse Hmain) as (cn & images & Hcn & ->).
  cbn [class_names darknet53]. split; [done|].
  unfold darknet_class_of. split.
  - intros Hd.
    assert ((len_str (darknet args) >? 0) = true) as ->.
    { destruct (darknet args); [done|]. apply Z.gtb_lt. unfold len_str. simpl String.length. lia. }
    split; intros Hc.
    + by destruct (Z.gtb_spec (darknet_class args) 0); [|lia].
    + by destruct (Z.gtb_spec (darknet_class args) 0); [lia|].
  - by intros ->.
Qed.

Lemma darknet_class_fallback_witness :
  ∃ args r,
    argparse.parse_args example_env darknet_argv = argparse.Parsed args ∧
    main example_env darknet_argv = Running r ∧
    darknet_class args = 0 ∧ darknet53 r = Some 2.
Proof.
  eexists _, _. split; [vm_compute; reflexivity|]. split; [vm_compute; reflexivity|].
  split; [reflexivity|].
  refine (proj2 (proj1 (proj2 (darknet_class_fallback example_env darknet_argv _ _ _ _)) _) _).
  - vm_compute. reflexivity.
  - vm_compute. reflexivity.
  - vm_compute. discriminate.
  - vm_compute. discriminate.
Defined.

(** C10. The optimizer hyperparameters do not depend on the command line:
    momentum SGD with learning rate 0.001, weight decay 0.0005 and gradient
    clipping at 10.0 as its two hooks, and a learning-rate schedule with a
    burn-in of 1000 iterations, in every run. *)
Theorem fixed_hyperparameters (env : Env) (argv : list string) (r : Run) :
  main env argv = Running r →
  optimizer r = {| lr := 0.001;
                   hooks := [(WeightDecay 0.0005, "hook_decay");
                             (GradientClipping 10.0, "hook_grad_clip")] |} ∧
  optimizer_hooks (final r) = hooks (optimizer r) ∧
  ∃ total lr_steps lr_scales,
    registered is_DarknetShift r =
      [(DarknetShift "steps" total 1000 lr_steps lr_scales, NoTrigger)].
Proof.
  intros Hmain.
  destruct (main_Running_parsed _ _ _ Hmain) as [args Hparse].
  destruct (main_Running _ _ _ _ Hparse Hmain) as (cn & images & _ & ->).
  split; [done|]. split; [done|].
  exists (iteration args), (resolved (iteration args) (steps args)), (scales args).
  registry_cases args env.
Qed.

Lemma fixed_hyperparameters_witness :
  ∃ r, main example_env ["--names"; "voc.names"; "--train"; "train.txt";
                         "--batchsize"; "16"; "--iteration"; "7"; "--gpus"; "0"]
       = Running r ∧
       optimizer r = {| lr := 0.001;
                        hooks := [(WeightDecay 0.0005, "hook_decay");
                                  (GradientClipping 10.0, "hook_grad_clip")] |}.
Proof.
  eexists. split; [vm_compute; reflexivity|].
  apply (fixed_hyperparameters example_env
           ["--names"; "voc.names"; "--train"; "train.txt";
            "--batchsize"; "16"; "--iteration"; "7"; "--gpus"; "0"]).
  vm_compute. reflexivity.
Defined.

(** * Further properties of the script *)

(** ** The loop over [steps], lines 139-142 *)

Lemma resolved_lookup (total : Z) (l : list Z) (i : nat) :
  resolved total l !! i = (λ v, if v <? 0 then total + v else v) <$> l !! i.
Proof. unfold resolved. apply list_lookup_fmap. Qed.

(** X1. The loop over [steps] never raises, whatever the list (the empty
    list included): every index it reads is in range.  It keeps the length
    of the list and touches nothing else of the state. *)
Theorem resolve_steps_returns (a : Args) (st : St) :
  ∃ st',
    resolve_steps a st = Ok ((), st') ∧
    length (args_steps st') = length (args_steps st) ∧
    current_device st' = current_device st ∧
    model_device st' = model_device st ∧
    optimizer_hooks st' = optimizer_hooks st ∧
    trainer_extensions st' = trainer_extensions st.
Proof.
  eexists. split; [apply resolve_steps_run|].
  cbn [args_steps set_args_steps current_device model_device optimizer_hooks
       trainer_extensions].
  unfold resolved. by rewrite length_map.
Qed.

(** X2. The loop leaves the state as it is exactly when there is nothing
    to shift: the iteration count is 0 or no entry is negative. *)
Theorem resolve_steps_unchanged (a : Args) (st : St) :
  resolve_steps a st = Ok ((), st) ↔
  iteration a = 0 ∨ Forall (λ v, 0 ≤ v) (args_steps st).
Proof.
  rewrite resolve_steps_run. split.
  - intros [= H]. destruct st as [l d m h e].
    unfold set_args_steps in H.
    cbn [args_steps current_device model_device optimizer_hooks trainer_extensions] in *.
    injection H as Hl.
    destruct (decide (iteration a = 0)) as [|Hne]; [by left|right].
    apply Forall_lookup. intros i v Hv.
    apply (f_equal (λ l', l' !! i)) in Hl. rewrite resolved_lookup, Hv in Hl.
    simpl in Hl. destruct (Z.ltb_spec v 0); [|done].
    injection Hl as Hl. lia.
  - intros H. f_equal. f_equal. destruct st as [l d m h e].
    unfold set_args_steps.
    cbn [args_steps current_device model_device optimizer_hooks trainer_extensions] in *.
    f_equal. apply list_eq. intros i. rewrite resolved_lookup.
    destruct (l !! i) as [v|] eqn:Hv; [|done]. simpl. f_equal.
    destruct (Z.ltb_spec v 0); [|done].
    destruct H as [->|H]; [lia|].
    apply (Forall_lookup_1 _ _ _ _ H) in Hv. lia.
Qed.

(** X3. On a list in non-decreasing order the loop gives a list in
    non-decreasing order exactly when every shifted boundary stays at or
    below every boundary given as an absolute iteration. *)
Theorem resolve_steps_order (a : Args) (st st' : St) :
  resolve_steps a st = Ok ((), st') →
  nondecreasing (args_steps st) →
  (nondecreasing (args_steps st') ↔
   ∀ v w, v ∈ args_steps st → w ∈ args_steps st → v < 0 → 0 ≤ w →
          iteration a + v ≤ w).
Proof.
  rewrite resolve_steps_run. intros [= <-] Hsorted.
  cbn [args_steps set_args_steps]. split.
  - intros Hres v w Hv Hw Hneg Hpos.
    apply list_elem_of_lookup in Hv as [i Hi], Hw as [j Hj].
    assert (i ≤ j)%nat as Hij.
    { destruct (decide (i ≤ j)%nat) as [|Hgt]; [done|].
      pose proof (Hsorted j i w v ltac:(lia) Hj Hi). lia. }
    apply (Hres i j (iteration a + v) w Hij).
    + rewrite resolved_lookup, Hi. simpl. by destruct (Z.ltb_spec v 0); [|lia].
    + rewrite resolved_lookup, Hj. simpl. by destruct (Z.ltb_spec w 0); [lia|].
  - intros Hcross i j x y Hij Hx Hy.
    rewrite resolved_lookup in Hx, Hy.
    destruct (args_steps st !! i) as [v|] eqn:Hi; [|done].
    destruct (args_steps st !! j) as [w|] eqn:Hj; [|done].
    simpl in Hx, Hy. injection Hx as <-. injection Hy as <-.
    pose proof (Hsorted i j v w Hij Hi Hj).
    destruct (Z.ltb_spec v 0), (Z.ltb_spec w 0); try lia.
    apply Hcross; [by eapply list_elem_of_lookup_2..|done|done].
Qed.

Lemma resolve_steps_order_witness :
  ∃ a st',
    iteration a = 50200 ∧
    resolve_steps a (state_with_steps [-10200; -5200]) = Ok ((), st') ∧
    args_steps st' = [40000; 45000] ∧
    nondecreasing (args_steps st').
Proof.
  exists (argparse.namespace ∅). eexists.
  split; [reflexivity|]. split; [vm_compute; reflexivity|]. split; [reflexivity|].
  apply (resolve_steps_order (argparse.namespace ∅) (state_with_steps [-10200; -5200])).
  - vm_compute. reflexivity.
  - intros [|[|[|i]]] [|[|[|j]]] x y Hij Hx Hy; simplify_eq/=; lia.
  - intros v w Hv Hw Hneg Hpos. exfalso. cbn in Hw.
    repeat (apply elem_of_cons in Hw as [->|Hw]; [lia|]). by apply elem_of_nil in Hw.
Defined.

(** ** The way to [trainer.run()] *)


Lemma nonempty_iff (s : string) : negb (len_str s =? 0) = true ↔ s ≠ "".
Proof.
  destruct s as [|c s]; [done|]. split; [done|]. intros _.
  apply negb_true_iff, Z.eqb_neq. unfold len_str. simpl String.length. lia.
Qed.

Ltac skip_statement H :=
  let a := fresh "skipped" in let st := fresh "between" in let H1 := fresh "Hskip" in
  apply bind_Ok in H as (a & st & H1 & H); clear H1.




(** ** What [main] builds *)

(** X6. The detection head always has as many classes as the names file
    has entries and takes its base from the backbone that was built;
    [--darknet_class] changes the backbone only, so the two class counts
    differ exactly when a positive [--darknet_class] other than the number
    of names is given. *)
Theorem head_and_backbone_classes (env : Env) (argv : list string) (args : Args) (r : Run) :
  parse_args env argv = Parsed args →
  main env argv = Running r →
  n_class (yolov3 r) = len (class_names r) ∧
  base (yolov3 r) = darknet53 r ∧
  ∀ n, darknet53 r = Some n →
    (n ≠ n_class (yolov3 r) ↔
     0 < darknet_class args ∧ darknet_class args ≠ len (class_names r)).
Proof.
  intros Hparse Hmain.
  destruct (main_Running _ _ _ _ Hparse Hmain) as (cn & images & _ & ->).
  cbn [yolov3 n_class base class_names darknet53]. split; [done|]. split; [done|].
  intros n. unfold darknet_class_of.
  destruct (len_str (darknet args) >? 0); [|done]. intros [= <-].
  destruct (Z.gtb_spec (darknet_class args) 0) as [Hpos|Hneg]; split; intros Hne; lia.
Qed.

Lemma head_and_backbone_classes_witness :
  ∃ args r,
    parse_args example_env
      ["--names"; "voc.names"; "--train"; "train.txt";
       "--darknet"; "darknet53.npz"; "--darknet_class"; "1000"] = Parsed args ∧
    main example_env
      ["--names"; "voc.names"; "--train"; "train.txt";
       "--darknet"; "darknet53.npz"; "--darknet_class"; "1000"] = Running r ∧
    n_class (yolov3 r) = 2 ∧ darknet53 r = Some 1000.
Proof.
  eexists _, _. split; [vm_compute; reflexivity|]. split; [vm_compute; reflexivity|].
  split; [|reflexivity].
  destruct (head_and_backbone_classes example_env
              ["--names"; "voc.names"; "--train"; "train.txt";
               "--darknet"; "darknet53.npz"; "--darknet_class"; "1000"] _ _
              ltac:(vm_compute; reflexivity) ltac:(vm_compute; reflexivity))
    as (Hhead & _).
  exact Hhead.
Defined.

(** X7. One device serves the whole run: the updater's main device, the
    evaluator and the detection preview all get [gpus[0]], or -1 when no
    GPU is given, and with a GPU given it is the current CUDA device. *)
Theorem one_main_device (env : Env) (argv : list string) (args : Args) (r : Run) :
  parse_args env argv = Parsed args →
  main env argv = Running r →
  device r = match gpus args with g :: _ => g | [] => -1 end ∧
  main_device (updater r) = Some (device r) ∧
  current_device (final r) = match gpus args with g :: _ => Some g | [] => None end ∧
  ∀ e t d, (e, t) ∈ extensions r → extension_device e = Some d → d = device r.
Proof.
  intros Hparse Hmain.
  destruct (main_Running _ _ _ _ Hparse Hmain) as (cn & images & _ & ->).
  cbn [device updater final extensions current_device final_state].
  split; [done|]. split; [|split; [done|]].
  - destruct (gpus args) as [|g [|g' gs]]; [done|done|].
    cbn [updater_of main_device device_of]. unfold parallel_devices.
    rewrite fold_devices_other; [apply lookup_singleton_eq|].
    intros x _. apply gpu_key_not_main.
  - intros e t d. registry_split args env; cbn [app]; intros Hin Hd;
      repeat (apply elem_of_cons in Hin as [Hin|Hin];
              [injection Hin as -> ->; cbn in Hd; by simplify_eq|]);
      by apply elem_of_nil in Hin.
Qed.

Lemma one_main_device_witness :
  ∃ args r,
    parse_args example_env
      ["--names"; "voc.names"; "--train"; "train.txt"; "--valid"; "valid.txt";
       "--gpus"; "3"; "5"] = Parsed args ∧
    main example_env
      ["--names"; "voc.names"; "--train"; "train.txt"; "--valid"; "valid.txt";
       "--gpus"; "3"; "5"] = Running r ∧
    device r = 3 ∧ main_device (updater r) = Some 3 ∧
    registered is_Evaluator r = [(Evaluator 3, Interval (100, "iteration"))].
Proof.
  eexists _, _. split; [vm_compute; reflexivity|]. split; [vm_compute; reflexivity|].
  destruct (one_main_device example_env
              ["--names"; "voc.names"; "--train"; "train.txt"; "--valid"; "valid.txt";
               "--gpus"; "3"; "5"] _ _
              ltac:(vm_compute; reflexivity) ltac:(vm_compute; reflexivity))
    as (Hdev & Hmain & _).
  split; [exact Hdev|]. split; [exact Hmain|]. reflexivity.
Defined.

(** Lines 155-162, read off a run of [main]'s body that returns: the
    detection list was loaded, and the extension built from it is the last
    one registered. *)
Lemma main_body_detection (env : Env) (args : Args) (r : Run) (st : St) :
  main_body env args (initial args) = Ok (r, st) →
  negb (len_str (detection args) =? 0) = true →
  ∃ images,
    load_list env (Some (detection args)) = Some images ∧
    last (extensions r) =
      Some (YOLODetection (thresh args) images (416, 416) (thresh args)
              (display_interval args, "iteration") (device r), NoTrigger).
Proof.
  unfold main_body. intros H Hdet.
  do 3 skip_statement H.
  bind_inv H dev st3 H1. clear H1.
  do 19 skip_statement H.
  bind_inv H u' st4 H1. rewrite Hdet in H1. apply when_Ok in H1.
  bind_inv H1 images st5 H2. apply call_Ok in H2 as [Himages ->].
  apply extend_Ok in H1 as ->.
  bind_inv H st6 st7 H1. apply gets_Ok in H1 as [-> ->].
  apply ret_Ok in H as [-> ->].
  exists images. split; [exact Himages|].
  cbn [extensions device trainer_extensions push_extension].
  apply last_snoc.
Qed.

(** X8. The detection extension is registered exactly when a detection
    list is given: it is built from the images that [load_list] returned
    for it, at size 416 x 416, with [--thresh] as both thresholds, the
    display interval and the run's device, and it comes last. *)
Theorem detection_policy (env : Env) (argv : list string) (args : Args) (r : Run) :
  parse_args env argv = Parsed args →
  main env argv = Running r →
  (detection args = "" → registered is_YOLODetection r = []) ∧
  (detection args ≠ "" →
   ∃ images,
     load_list env (Some (detection args)) = Some images ∧
     registered is_YOLODetection r =
       [(YOLODetection (thresh args) images (416, 416) (thresh args)
           (display_interval args, "iteration") (device r), NoTrigger)] ∧
     last (extensions r) =
       Some (YOLODetection (thresh args) images (416, 416) (thresh args)
               (display_interval args, "iteration") (device r), NoTrigger)).
Proof.
  intros Hparse Hmain.
  destruct (main_Running _ _ _ _ Hparse Hmain) as (cn & images' & _ & Hr).
  split.
  - intros Hdet. rewrite Hr. unfold registered. cbn [extensions].
    unfold registry. rewrite Hdet.
    destruct (len_str (valid args) >? 0), (plot_available env); reflexivity.
  - intros Hdet. apply nonempty_iff in Hdet.
    unfold main in Hmain. rewrite Hparse in Hmain.
    destruct (main_body env args (initial args)) as [[r' st]|e] eqn:Hbody; [|done].
    injection Hmain as ->.
    destruct (main_body_detection _ _ _ _ Hbody Hdet) as (images & Himages & Hlast).
    exists images. split; [exact Himages|]. split; [|exact Hlast].
    rewrite Hr in Hlast |- *. cbn [extensions device] in Hlast |- *.
    assert (Himg : images' = images).
    { unfold registry in Hlast. rewrite Hdet in Hlast.
      rewrite !app_assoc, last_snoc in Hlast. by injection Hlast. }
    subst images'. unfold registered. cbn [extensions].
    unfold registry. rewrite Hdet.
    destruct (len_str (valid args) >? 0), (plot_available env); reflexivity.
Qed.

Lemma detection_policy_witness :
  ∃ args r,
    parse_args example_env (example_argv ++ ["--detection"; "images.txt"]) = Parsed args ∧
    main example_env (example_argv ++ ["--detection"; "images.txt"]) = Running r ∧
    detection args ≠ "" ∧
    registered is_YOLODetection r =
      [(YOLODetection 0.5 ["person"; "car"] (416, 416) 0.5 (2, "iteration") (-1), NoTrigger)].
Proof.
  eexists _, _.
  split; [vm_compute; reflexivity|]. split; [vm_compute; reflexivity|].
  split; [done|].
  destruct (detection_policy example_env (example_argv ++ ["--detection"; "images.txt"])
              _ _ ltac:(vm_compute; reflexivity) ltac:(vm_compute; reflexivity))
    as (_ & Hgiven).
  destruct (Hgiven ltac:(done)) as (images & Himages & Hreg & _).
  vm_compute in Himages. injection Himages as <-.
  exact Hreg.
Defined.

(** ** The iterator's buffer and the crop sizes *)

(** X9. The crop sizes handed to [CropSizeUpdater] are the multiples of
    32 from 320 to 448, and the shared-memory buffer of the training
    iterator, sized for a 448 x 448 image, holds a sample of every one of
    them. *)
Theorem buffer_fits_crop_sizes (env : Env) (argv : list string) (args : Args) (r : Run)
  (sizes : list Z) (cutoff : Z) (trig : Trigger) :
  parse_args env argv = Parsed args →
  main env argv = Running r →
  (CropSizeUpdater sizes cutoff, trig) ∈ extensions r →
  ∀ s, s ∈ sizes →
    320 ≤ s ≤ 448 ∧ s mod 32 = 0 ∧
    (s ^ 2 * 3 + (1 + 4) * 100) * 4 ≤ shared_mem (train_iter r).
Proof.
  intros Hparse Hmain.
  destruct (main_Running _ _ _ _ Hparse Hmain) as (cn & images & _ & ->).
  cbn [extensions train_iter shared_mem].
  assert (Hsizes : sizes = [320; 352; 384; 416; 448] →
            ∀ s, s ∈ sizes → 320 ≤ s ≤ 448 ∧ s mod 32 = 0 ∧
                 (s ^ 2 * 3 + (1 + 4) * 100) * 4 ≤ (448 ^ 2 * 3 + (1 + 4) * 100) * 4).
  { intros -> s Hs.
    repeat (apply elem_of_cons in Hs as [->|Hs]; [by vm_compute|]).
    by apply elem_of_nil in Hs. }
  registry_split args env; cbn [app]; intros Hin; apply Hsizes;
    repeat (apply elem_of_cons in Hin as [Hin|Hin];
            [first [discriminate Hin | by injection Hin as -> _ _]|]);
    by apply elem_of_nil in Hin.
Qed.

Lemma buffer_fits_crop_sizes_witness :
  ∃ args r,
    parse_args example_env example_argv = Parsed args ∧
    main example_env example_argv = Running r ∧
    (352 ^ 2 * 3 + (1 + 4) * 100) * 4 ≤ shared_mem (train_iter r).
Proof.
  eexists _, _. split; [vm_compute; reflexivity|]. split; [vm_compute; reflexivity|].
  apply (buffer_fits_crop_sizes example_env example_argv _ _
           [320; 352; 384; 416; 448] (-196) NoTrigger
           ltac:(vm_compute; reflexivity) ltac:(vm_compute; reflexivity)).
  - vm_compute. do 9 apply list_elem_of_further. apply list_elem_of_here.
  - apply list_elem_of_further, list_elem_of_here.
Defined.

(** ** The device dictionary, as a set of devices *)

Lemma fold_devices_size (others : list Z) (acc : gmap string Z) :
  NoDup others →
  (∀ g, g ∈ others → acc !! ("gpu" +:+ pretty g) = None) →
  size (fold_left add_gpu others acc) = (size acc + length others)%nat.
Proof.
  revert acc. induction others as [|x others IH]; intros acc Hnd Hacc.
  - simpl. lia.
  - apply NoDup_cons in Hnd as [Hx Hnd]. simpl. rewrite IH; [|done|].
    + unfold add_gpu. rewrite map_size_insert_None; [lia|]. apply Hacc. by left.
    + intros g Hg. unfold add_gpu. rewrite lookup_insert_ne.
      * apply Hacc. by right.
      * intros Heq. apply gpu_key_inj in Heq as ->. done.
Qed.

(** X10. The parallel updater's devices depend on the set of the
    remaining GPU ids only: order and repetition do not matter, a GPU
    listed twice is one device, and the dictionary has one entry more than
    there are distinct remaining ids (also when [gpus[0]] is listed
    again). *)
Theorem parallel_devices_by_set (main_gpu : Z) (others others' : list Z) :
  (∀ g, g ∈ others ↔ g ∈ others') →
  parallel_devices main_gpu others = parallel_devices main_gpu others' ∧
  size (parallel_devices main_gpu others) = S (length (remove_dups others)).
Proof.
  intros Hset.
  assert (Heq : ∀ l l' : list Z, (∀ g, g ∈ l ↔ g ∈ l') →
            parallel_devices main_gpu l = parallel_devices main_gpu l').
  { intros l l' Hll. apply map_eq. intros k.
    destruct (parallel_devices main_gpu l !! k) as [v|] eqn:Hl; symmetry.
    - unfold parallel_devices in Hl |- *.
      apply fold_devices_inv in Hl as [(g & Hg & -> & ->)|Hl].
      + apply fold_devices_gpu. by apply Hll.
      + apply lookup_singleton_Some in Hl as [<- <-].
        rewrite fold_devices_other; [apply lookup_singleton_eq|].
        intros g _. apply gpu_key_not_main.
    - destruct (parallel_devices main_gpu l' !! k) as [v|] eqn:Hl'; [|done].
      exfalso. unfold parallel_devices in Hl, Hl'.
      apply fold_devices_inv in Hl' as [(g & Hg & -> & ->)|Hl'].
      + rewrite fold_devices_gpu in Hl; [done|]. by apply Hll.
      + apply lookup_singleton_Some in Hl' as [<- <-].
        rewrite fold_devices_other in Hl; [by rewrite lookup_singleton_eq in Hl|].
        intros g _. apply gpu_key_not_main. }
  split; [by apply Heq|].
  rewrite (Heq others (remove_dups others))
    by (intros g; by rewrite elem_of_remove_dups).
  unfold parallel_devices. rewrite fold_devices_size.
  - by rewrite map_size_singleton.
  - apply NoDup_remove_dups.
  - intros g _. apply lookup_singleton_ne. apply gpu_key_not_main.
Qed.

Lemma parallel_devices_by_set_witness :
  parallel_devices 0 [1; 2; 1; 0] = parallel_devices 0 [0; 2; 1] ∧
  size (parallel_devices 0 [1; 2; 1; 0]) = 4%nat.
Proof.
  apply (parallel_devices_by_set 0 [1; 2; 1; 0] [0; 2; 1]).
  intros g. rewrite !elem_of_cons, !elem_of_nil. tauto.
Defined.

(** ** Runs of the trainer *)

(** ** The periodic extensions in a run *)

Lemma fire_all_times (mean : string → Z → Q) (sel : Extension → bool) (obs : list string)
  (ents ents' : list (Extension * Trigger * TriggerState)) (t : Z) (evs : list Event) :
  fire_all mean obs ents t = Ok (evs, ents') →
  ∀ x, x ∈ firings sel evs → x = t.
Proof.
  revert obs ents' evs. induction ents as [|[e s] rest IH]; intros obs ents' evs H x Hx.
  - injection H as <- <-. by apply elem_of_nil in Hx.
  - cbn [fire_all] in H.
    destruct (fires mean obs e s t) as [[b s']|?]; [|done].
    destruct (fire_all mean _ rest t) as [[evs0 rest']|?] eqn:Hr; [|done].
    injection H as <- <-. rewrite firings_app in Hx.
    apply elem_of_app in Hx as [Hx|Hx]; [|by eapply IH].
    destruct b; [|by apply elem_of_nil in Hx].
    unfold firings in Hx. simpl in Hx.
    destruct (sel (fst e)); [|by apply elem_of_nil in Hx].
    by apply list_elem_of_singleton in Hx.
Qed.

(** An extension acts only at an iteration the updater has completed. *)
Lemma firings_in_updates (mean : string → Z → Q) (sel : Extension → bool) (fuel : nat)
  (stop : Z) (ss : TriggerState) (ents : list (Extension * Trigger * TriggerState))
  (t : Z) (trace : list Event) :
  loop mean fuel stop ss ents t = Finished trace →
  ∀ x, x ∈ firings sel trace → x ∈ updates trace.
Proof.
  revert ss ents t trace. induction fuel as [|fuel IH]; intros ss ents t trace H; [done|].
  apply loop_step in H as [->|(ss' & evs & ents' & trace0 & Hf & Hl & ->)].
  { intros x Hx. by apply elem_of_nil in Hx. }
  intros x Hx. rewrite firings_step in Hx. rewrite (updates_step _ _ _ _ _ _ _ _ Hf).
  apply elem_of_app in Hx as [Hx|Hx].
  - apply (fire_all_times _ _ _ _ _ _ _ Hf) in Hx as ->. apply list_elem_of_here.
  - apply list_elem_of_further. by eapply IH.
Qed.

Lemma elem_of_multiples_of (p t : Z) (l : list Z) :
  t ∈ multiples_of p l ↔ t ∈ l ∧ t mod p = 0.
Proof.
  unfold multiples_of. rewrite list_elem_of_In, List.filter_In, <- list_elem_of_In.
  by rewrite Z.eqb_eq.
Qed.


(** The one entry that [sel] selects acts by an interval trigger. *)
Lemma run_interval (mean : string → Z → Q) (sel : Extension → bool)
  (l : list (Extension * Trigger)) (entry : Extension * Trigger) (p : Z)
  (fuel : nat) (stop : Z) (trace : list Event) :
  0 < p →
  (∀ obs s t, fires mean obs entry s t = interval p s t) →
  List.filter (λ x, sel (fst x)) l = [entry] →
  loop mean fuel stop fresh (map (λ e, (e, fresh)) l) 0 = Finished trace →
  firings sel trace = multiples_of p (updates trace).
Proof.
  intros Hp Hfires Hl Hrun.
  exact (loop_interval mean sel entry p Hp Hfires _ _ _ _ fresh _ _ eq_refl
           (keep_selected _ _ _ Hl) Hrun).
Qed.

(** X11. The evaluator is registered exactly when a validation set is
    given, on the run's device and under the display interval; in a run it
    then evaluates at the multiples of [display_interval], and without a
    validation set it never does. *)
Theorem evaluator_policy (env : Env) (argv : list string) (args : Args)
  (r : Run) (mean : string → Z → Q) (fuel : nat) (trace : list Event) :
  parse_args env argv = Parsed args →
  main env argv = Running r →
  0 < display_interval args →
  trainer.run mean fuel r = Finished trace →
  registered is_Evaluator r =
    (if bool_decide (valid args = "") then []
     else [(Evaluator (device r), Interval (display_interval args, "iteration"))]) ∧
  firings is_Evaluator trace =
    (if bool_decide (valid args = "") then []
     else multiples_of (display_interval args) (updates trace)).
Proof.
  intros Hparse Hmain Hd Hrun.
  destruct (main_Running _ _ _ _ Hparse Hmain) as (cn & images & _ & ->).
  unfold trainer.run in Hrun. cbn [stop_trigger extensions fst] in Hrun.
  unfold registered. cbn [extensions device].
  assert (Hreg : List.filter (λ entry, is_Evaluator (fst entry))
                   (registry args (plot_available env) images) =
                 if bool_decide (valid args = "") then []
                 else [(Evaluator (device_of (gpus args)),
                        Interval (display_interval args, "iteration"))]).
  { unfold registry. rewrite !valid_given.
    destruct (bool_decide (valid args = "")), (plot_available env),
      (negb (len_str (detection args) =? 0)); reflexivity. }
  split; [exact Hreg|].
  destruct (bool_decide (valid args = "")).
  - exact (loop_nil mean is_Evaluator _ _ _ _ _ _ (keep_unselected _ _ Hreg) Hrun).
  - exact (run_interval mean is_Evaluator _
             (Evaluator (device_of (gpus args)), Interval (display_interval args, "iteration"))
             (display_interval args) _ _ _
             Hd (λ _ _ _, eq_refl) Hreg Hrun).
Qed.

Lemma evaluator_policy_witness :
  ∃ args r trace,
    parse_args example_env (example_argv ++ ["--valid"; "valid.txt"]) = Parsed args ∧
    main example_env (example_argv ++ ["--valid"; "valid.txt"]) = Running r ∧
    trainer.run example_mean 10 r = Finished trace ∧
    firings is_Evaluator trace = [2; 4].
Proof.
  eexists _, _, _.
  split; [vm_compute; reflexivity|]. split; [vm_compute; reflexivity|].
  split; [vm_compute; reflexivity|].
  destruct (evaluator_policy example_env (example_argv ++ ["--valid"; "valid.txt"])
              _ _ example_mean 10 _
              ltac:(vm_compute; reflexivity) ltac:(vm_compute; reflexivity)
              ltac:(reflexivity) ltac:(vm_compute; reflexivity)) as (_ & Hfire).
  exact Hfire.
Defined.

Lemma backup_registered (args : Args) (plot : bool) (images : list string) :
  List.filter (λ entry, writes "yolov3_backup.npz" (fst entry))
    (registry args plot images) =
  [(snapshot_object "yolov3_backup.npz", Interval (snapshot_interval args, "iteration"))].
Proof.
  unfold registry.
  destruct (len_str (valid args) >? 0), plot, (negb (len_str (detection args) =? 0));
    reflexivity.
Qed.

(** X12. The backup snapshot is registered once, under the snapshot
    interval alone: in a run [yolov3_backup.npz] is written at every
    multiple of [snapshot_interval], whatever the loss. *)
Theorem backup_snapshot_policy (env : Env) (argv : list string) (args : Args)
  (r : Run) (mean : string → Z → Q) (fuel : nat) (trace : list Event) :
  parse_args env argv = Parsed args →
  main env argv = Running r →
  0 < snapshot_interval args →
  trainer.run mean fuel r = Finished trace →
  registered (writes "yolov3_backup.npz") r =
    [(snapshot_object "yolov3_backup.npz",
      Interval (snapshot_interval args, "iteration"))] ∧
  firings (writes "yolov3_backup.npz") trace =
    multiples_of (snapshot_interval args) (updates trace).
Proof.
  intros Hparse Hmain Hs Hrun.
  destruct (main_Running _ _ _ _ Hparse Hmain) as (cn & images & _ & ->).
  unfold trainer.run in Hrun. cbn [stop_trigger extensions fst] in Hrun.
  unfold registered. cbn [extensions].
  split; [apply backup_registered|].
  exact (run_interval mean (writes "yolov3_backup.npz") _
           (snapshot_object "yolov3_backup.npz", Interval (snapshot_interval args, "iteration"))
           (snapshot_interval args) _ _ _
           Hs (λ _ _ _, eq_refl) (backup_registered _ _ _) Hrun).
Qed.

Lemma backup_snapshot_policy_witness :
  ∃ args r trace,
    parse_args example_env example_argv = Parsed args ∧
    main example_env example_argv = Running r ∧
    trainer.run example_mean 10 r = Finished trace ∧
    firings (writes "yolov3_backup.npz") trace = [2; 4].
Proof.
  eexists _, _, _.
  split; [vm_compute; reflexivity|]. split; [vm_compute; reflexivity|].
  split; [vm_compute; reflexivity|].
  destruct (backup_snapshot_policy example_env example_argv _ _ example_mean 10 _
              ltac:(vm_compute; reflexivity) ltac:(vm_compute; reflexivity)
              ltac:(reflexivity) ltac:(vm_compute; reflexivity)) as (_ & Hfire).
  exact Hfire.
Defined.

(** X13. Whenever the best snapshot is written, the backup snapshot is
    written at the same iteration: both are checked at the multiples of
    [snapshot_interval], and the backup has no further condition. *)
Theorem best_snapshot_within_backup (env : Env) (argv : list string) (args : Args)
  (r : Run) (mean : string → Z → Q) (fuel : nat) (trace : list Event) :
  parse_args env argv = Parsed args →
  main env argv = Running r →
  0 < snapshot_interval args →
  trainer.run mean fuel r = Finished trace →
  ∀ t, t ∈ firings (writes "yolov3_snapshot.npz") trace →
       t ∈ firings (writes "yolov3_backup.npz") trace.
Proof.
  intros Hparse Hmain Hs Hrun t Ht.
  destruct (main_Running _ _ _ _ Hparse Hmain) as (cn & images & _ & ->).
  unfold trainer.run in Hrun. cbn [stop_trigger extensions fst] in Hrun.
  rewrite (run_interval mean (writes "yolov3_backup.npz") _
           (snapshot_object "yolov3_backup.npz", Interval (snapshot_interval args, "iteration"))
           (snapshot_interval args) _ _ _
             Hs (λ _ _ _, eq_refl) (backup_registered _ _ _) Hrun).
  apply elem_of_multiples_of. split; [by eapply firings_in_updates|].
  assert (Hreg : List.filter (λ entry, writes "yolov3_snapshot.npz" (fst entry))
                   (registry args (plot_available env) images) =
                 [(snapshot_object "yolov3_snapshot.npz",
                   MinValueTrigger (snapshot_key_of args)
                     (snapshot_interval args, "iteration"))]).
  { registry_split args env; reflexivity. }
  assert (Hbb : best_below mean (snapshot_key_of args) (snapshot_interval args) 0 fresh).
  { unfold best_below. cbn [best_value fresh]. intros t' Ht'. lia. }
  apply (loop_min_value mean (writes "yolov3_snapshot.npz")
           (snapshot_object "yolov3_snapshot.npz") (snapshot_key_of args) "iteration"
           (snapshot_interval args) Hs fuel (iteration args) fresh _ fresh 0 trace
           eq_refl Hbb (keep_selected _ _ _ Hreg) Hrun t Ht).
Qed.

Lemma best_snapshot_within_backup_witness :
  ∃ args r trace,
    parse_args example_env example_argv = Parsed args ∧
    main example_env example_argv = Running r ∧
    trainer.run example_mean 10 r = Finished trace ∧
    2 ∈ firings (writes "yolov3_snapshot.npz") trace ∧
    2 ∈ firings (writes "yolov3_backup.npz") trace.
Proof.
  eexists _, _, _.
  split; [vm_compute; reflexivity|]. split; [vm_compute; reflexivity|].
  split; [vm_compute; reflexivity|].
  split; [vm_compute; apply list_elem_of_here|].
  apply (best_snapshot_within_backup example_env example_argv _ _ example_mean 10 _
           ltac:(vm_compute; reflexivity) ltac:(vm_compute; reflexivity)
           ltac:(reflexivity) ltac:(vm_compute; reflexivity)).
  vm_compute. apply list_elem_of_here.
Defined.



(** ** The declarations of the options *)

(** No attribute is declared twice. *)
Lemma declared_dest (a : Action) : a ∈ actions → declared (dest a) = Some a.
Proof.
  revert a. apply Forall_forall. unfold actions. repeat constructor.
Qed.

(** No option string is declared twice. *)
Lemma find_action_option_string (a : Action) (o : string) :
  a ∈ actions → o ∈ option_strings a → find_action o = Some a.
Proof.
  intros Ha. revert o. apply Forall_forall. revert a Ha. apply Forall_forall.
  unfold actions. repeat constructor.
Qed.

Lemma find_action_Some (tok : string) (a : Action) :
  find_action tok = Some a → a ∈ actions ∧ tok ∈ option_strings a.
Proof.
  intros H. apply find_some in H as [Hin Htok].
  split; [by apply list_elem_of_In|by apply bool_decide_eq_true in Htok].
Qed.

(** An attribute none of whose option strings occurs stays unset. *)
Lemma scan_unmentioned (env : Env) (d : string) (a0 : Action) (toks : list string)
  (cur : option (Action * list string)) (ns ns' : gmap string Value) :
  declared d = Some a0 →
  (∀ tok, tok ∈ toks → tok ∉ option_strings a0) →
  (∀ a raw, cur = Some (a, raw) → dest a ≠ d) →
  ns !! d = None →
  scan env cur ns toks = Parsed ns' →
  ns' !! d = None.
Proof.
  intros Hd. revert cur ns. induction toks as [|tok rest IH]; intros cur ns Ho Hcur Hns H.
  - cbn [scan] in H.
    destruct (close env cur ns) as [ns''|] eqn:Hc; [|done].
    injection H as <-. by eapply close_absent.
  - cbn [scan] in H.
    assert (Hrest : ∀ tok', tok' ∈ rest → tok' ∉ option_strings a0)
      by (intros tok' Hin; apply Ho; by right).
    destruct (classify tok) as [a|s|] eqn:Hclass; [| |done].
    + destruct (close env cur ns) as [ns''|] eqn:Hc; [|done].
      apply (IH _ _ Hrest) in H; [done| |by eapply close_absent].
      intros a' raw [= <- <-] Hdest.
      apply classify_TOpt, find_action_Some in Hclass as [Ha Htok].
      apply declared_dest in Ha. rewrite Hdest, Hd in Ha. injection Ha as ->.
      apply (Ho tok); [by left|done].
    + destruct cur as [[a raw]|]; [|done].
      apply (IH _ _ Hrest) in H; [done| |done].
      intros a' raw' [= <- <-]. by eapply Hcur.
Qed.

Lemma parse_args_unmentioned (env : Env) (argv : list string) (args : Args) :
  parse_args env argv = Parsed args →
  ∃ ns, args = namespace ns ∧
        ∀ d a0, declared d = Some a0 →
                (∀ tok, tok ∈ argv → tok ∉ option_strings a0) → ns !! d = None.
Proof.
  unfold parse_args. destruct (forallb _ argv); [|done].
  destruct (scan env None ∅ argv) as [ns| |] eqn:Hscan; [|done..].
  intros [= <-]. exists ns. split; [done|]. intros d a0 Hd Ho.
  eapply scan_unmentioned; [exact Hd|exact Ho| |apply lookup_empty|exact Hscan]. done.
Qed.

Ltac unmentioned H d :=
  intros;
  let Hns := fresh "Hns" in
  assert (Hns : _ !! d = None)
    by (eapply H; [reflexivity|];
        let tok := fresh "tok" in let Hin := fresh "Hin" in let Hopt := fresh "Hopt" in
        intros tok Hin Hopt; cbn [option_strings] in Hopt;
        repeat (apply elem_of_cons in Hopt as [->|Hopt]; [done|]);
        by apply elem_of_nil in Hopt);
  unfold namespace; cbn -[lookup];
  unfold get_str, get_int, get_float, get_ints, get_floats;
  by rewrite Hns.

(** X15. An option that does not occur on an accepted command line, under
    none of its option strings, leaves its attribute at the default of its
    declaration. *)
Theorem unmentioned_options_keep_defaults (env : Env) (argv : list string) (args : Args) :
  parse_args env argv = Parsed args →
  ("--valid" ∉ argv → valid args = "") ∧
  ("--detection" ∉ argv → detection args = "") ∧
  ("--batchsize" ∉ argv → "-b" ∉ argv → batchsize args = 8) ∧
  ("--iteration" ∉ argv → "-i" ∉ argv → iteration args = 50200) ∧
  ("--gpus" ∉ argv → "-g" ∉ argv → gpus args = []) ∧
  ("--out" ∉ argv → "-o" ∉ argv → out args = "yolov3-result") ∧
  ("--seed" ∉ argv → seed args = 0) ∧
  ("--display_interval" ∉ argv → display_interval args = 100) ∧
  ("--snapshot_interval" ∉ argv → snapshot_interval args = 100) ∧
  ("--ignore_thresh" ∉ argv → ignore_thresh args = 0.5%Q) ∧
  ("--thresh" ∉ argv → thresh args = 0.5%Q) ∧
  ("--darknet" ∉ argv → darknet args = "") ∧
  ("--darknet_class" ∉ argv → darknet_class args = -1) ∧
  ("--steps" ∉ argv → steps args = [-10200; -5200]) ∧
  ("--scales" ∉ argv → scales args = [0.1%Q; 0.1%Q]).
Proof.
  intros Hparse.
  destruct (parse_args_unmentioned _ _ _ Hparse) as (ns & -> & H).
  repeat split.
  - unmentioned H "valid".
  - unmentioned H "detection".
  - unmentioned H "batchsize".
  - unmentioned H "iteration".
  - unmentioned H "gpus".
  - unmentioned H "out".
  - unmentioned H "seed".
  - unmentioned H "display_interval".
  - unmentioned H "snapshot_interval".
  - unmentioned H "ignore_thresh".
  - unmentioned H "thresh".
  - unmentioned H "darknet".
  - unmentioned H "darknet_class".
  - unmentioned H "steps".
  - unmentioned H "scales".
Qed.

Lemma unmentioned_options_keep_defaults_witness :
  ∃ args,
    parse_args example_env example_argv = Parsed args ∧
    batchsize args = 8 ∧ steps args = [-10200; -5200] ∧ darknet_class args = -1.
Proof.
  eexists. split; [vm_compute; reflexivity|].
  destruct (unmentioned_options_keep_defaults example_env example_argv _
              ltac:(vm_compute; reflexivity))
    as (_ & _ & Hb & _ & _ & _ & _ & _ & _ & _ & _ & _ & Hc & Hs & _).
  split; [|split]; [apply Hb|apply Hs|apply Hc];
    intros Hin;
    repeat (apply elem_of_cons in Hin as [Hin|Hin]; [discriminate Hin|]);
    by apply elem_of_nil in Hin.
Defined.

Lemma classify_canon (tok : string) : classify (canon tok) = classify tok.
Proof.
  unfold canon. destruct (find_action tok) as [a|] eqn:Hfind; [|done].
  destruct (head (option_strings a)) as [o|] eqn:Hhead; [|done]. simpl.
  apply find_action_Some in Hfind as Hfind'. destruct Hfind' as [Ha _].
  assert (Ho : find_action o = Some a).
  { apply find_action_option_string; [done|].
    destruct (option_strings a); [done|]. injection Hhead as ->. by left. }
  unfold classify. by rewrite Ho, Hfind.
Qed.

Lemma scan_canon (env : Env) (toks : list string)
  (cur : option (Action * list string)) (ns : gmap string Value) :
  scan env cur ns (canon <$> toks) = scan env cur ns toks.
Proof.
  revert cur ns. induction toks as [|tok rest IH]; intros cur ns; [done|].
  rewrite fmap_cons. cbn [scan]. rewrite classify_canon.
  destruct (classify tok) as [a|s|]; [|by destruct cur as [[a raw]|]|done].
  by destruct (close env cur ns).
Qed.

(** X16. The short option strings are aliases: writing [-b], [-i], [-g]
    or [-o] for [--batchsize], [--iteration], [--gpus] or [--out] anywhere
    on the command line changes neither the parsed arguments nor what
    [main] does. *)
Theorem short_options_are_aliases (env : Env) (argv : list string) :
  canon <$> ["-b"; "-i"; "-g"; "-o"] = ["--batchsize"; "--iteration"; "--gpus"; "--out"] ∧
  parse_args env (canon <$> argv) = parse_args env argv ∧
  main env (canon <$> argv) = main env argv.
Proof.
  split; [reflexivity|].
  assert (Hparse : parse_args env (canon <$> argv) = parse_args env argv).
  { unfold parse_args. rewrite scan_canon.
    replace (forallb _ (canon <$> argv)) with
      (forallb (λ tok, match classify tok with TOther => false | _ => true end) argv);
      [done|].
    induction argv as [|tok rest IH]; [done|].
    rewrite fmap_cons. cbn [forallb]. by rewrite classify_canon, IH. }
  split; [exact Hparse|]. unfold main. by rewrite Hparse.
Qed.
